(** * Aimmy V2 Educational Edition: a model of [app.py] and its properties

    The server keeps its state in module globals (the detection engine,
    the metrics dictionary and the list of bridge processes), generates
    pseudo-random detection batches in a background loop and publishes
    them on a socket.  This file embeds the Python code as Rocq functions
    and proves what the specification says about it.

    Modelling conventions:
    - a Python [float] is an IEEE 754 binary64 value, [spec_float] with
      precision 53 and maximal exponent 1024, and arithmetic on it is the
      correctly rounded arithmetic of [SpecFloat];
    - a Python [int] is a [Z]; a [str] is the string of its UTF-8
      bytes;
    - a [dict] with dynamic keys is a [gmap string _]; a dict display with
      fixed keys is a record;
    - a raised exception is the [Raise] case of a result;
    - the random generator is a tape of raw draws, so that a statement
      quantified over tapes covers every sequence of outcomes;
    - wall-clock readings and the outcome of a bounded [join] are inputs;
    - [socketio.emit] appends to a log of published events;
    - in a run, a request handler and an iteration of the loop each
      go through as one step, the requests being served one at a time;
      the handler of a POST of processes is modelled access by access
      as well, with other requests running in between. *)

From Stdlib Require Import ZArith Lia String Ascii List Bool.
From Stdlib Require Import SpecFloat.
From stdpp Require Import gmap strings list fin_maps.

#[local] Set Warnings "-register-all".
#[local] Open Scope string_scope.
#[local] Open Scope list_scope.
#[local] Open Scope Z_scope.

(** ** Python floats *)

Module Float.

Definition prec : Z := 53.
Definition emax : Z := 1024.

Definition add : spec_float -> spec_float -> spec_float := SFadd prec emax.
Definition sub : spec_float -> spec_float -> spec_float := SFsub prec emax.
Definition mul : spec_float -> spec_float -> spec_float := SFmul prec emax.

(** [x < y], [x <= y] and [x > y] on floats; all three are [False] as
    soon as one side is a NaN. *)
Definition ltb (x y : spec_float) : bool := SFltb x y.
Definition leb (x y : spec_float) : bool := SFleb x y.
Definition gtb (x y : spec_float) : bool := SFltb y x.

(** The order between a float and an [int] is exact: the integer is not
    rounded to a float first. *)
Definition compare_int (x : spec_float) (n : Z) : option comparison :=
  match x with
  | S754_nan => None
  | S754_infinity s => Some (if s then Lt else Gt)
  | S754_zero _ => Some (0 ?= n)
  | S754_finite s m e =>
      let v := cond_Zopp s (Z.pos m) in
      Some (if 0 <=? e then v * 2 ^ e ?= n else v ?= n * 2 ^ (- e))
  end.

Definition gtb_int (x : spec_float) (n : Z) : bool :=
  match compare_int x n with
  | Some Gt => true
  | _ => false
  end.

(** The float nearest to the dyadic number [m * 2^e]. *)
Definition of_dyadic (m e : Z) : spec_float :=
  binary_normalize prec emax m e false.

(** The float literals of the program, and the [0.8] of the round trip
    of the specification. *)
Definition lit_0_25 : spec_float := S754_finite false 4503599627370496 (-54).
Definition lit_0_3 : spec_float := S754_finite false 5404319552844595 (-54).
Definition lit_0_5 : spec_float := S754_finite false 4503599627370496 (-53).
Definition lit_0_75 : spec_float := S754_finite false 6755399441055744 (-53).
Definition lit_0_8 : spec_float := S754_finite false 7205759403792794 (-53).
Definition lit_1_0 : spec_float := S754_finite false 4503599627370496 (-52).
Definition lit_1000_0 : spec_float := S754_finite false 8796093022208000 (-43).

Definition is_nan (x : spec_float) : bool :=
  match x with
  | S754_nan => true
  | _ => false
  end.

End Float.

(** ** Builtins on strings

    A [str] is modelled by the string of its UTF-8 bytes, which is how
    the environment holds it.  [int(s)] and [float(s)] are modelled as
    CPython 3.11 runs them with its default settings.  Both first turn
    every character that is not ASCII into a blank when it is a Unicode
    blank and into its ASCII digit when it is a decimal digit, and fail
    on any other; the tables below are those of Unicode 14, the
    database of that interpreter.  Bytes that are no UTF-8 text reach
    the program as lone surrogates, which are neither, so that such a
    text is refused as well.  The blanks dropped at both ends are then
    the six ASCII ones, a sign may come first, and an underscore may
    stand between two digits.  [int] refuses a text of more digits than
    the limit of the interpreter, 4300 unless the environment sets
    another.  The value of a float literal is the nearest float, ties
    to even, with infinities beyond the range. *)

Module Py.

(** The blanks [int] and [float] drop at both ends: tab, line feed,
    vertical tab, form feed, carriage return and space. *)
Definition is_space (c : ascii) : bool :=
  let n := nat_of_ascii c in
  ((9 <=? n) && (n <=? 13) || (n =? 32))%nat.

Fixpoint lstrip (s : string) : string :=
  match s with
  | String c s' => if is_space c then lstrip s' else s
  | EmptyString => s
  end.

Definition strip (s : string) : string :=
  String.rev (lstrip (String.rev (lstrip s))).

Definition lower_char (c : ascii) : ascii :=
  let n := nat_of_ascii c in
  if ((65 <=? n) && (n <=? 90))%nat then ascii_of_nat (n + 32) else c.

Fixpoint lower (s : string) : string :=
  match s with
  | String c s' => String (lower_char c) (lower s')
  | EmptyString => EmptyString
  end.

(** A continuation byte of UTF-8, and the six bits it carries. *)
Definition continuation (c : ascii) : option N :=
  let b := N_of_ascii c in
  if ((128 <=? b) && (b <=? 191))%N then Some (b - 128)%N else None.

(** The code points of a text from its UTF-8 bytes; [None] when the
    bytes are no UTF-8 text: a stray or missing continuation byte, a
    code point written longer than it needs, a surrogate, or a value
    beyond U+10FFFF. *)
Fixpoint code_points (s : string) : option (list N) :=
  match s with
  | EmptyString => Some []
  | String c s1 =>
      let b := N_of_ascii c in
      if (b <? 128)%N then cons b <$> code_points s1
      else if (b <? 192)%N then None
      else if (b <? 224)%N then
        match s1 with
        | String c1 s2 =>
            match continuation c1 with
            | Some x1 =>
                let cp := ((b - 192) * 64 + x1)%N in
                if (128 <=? cp)%N then cons cp <$> code_points s2 else None
            | None => None
            end
        | EmptyString => None
        end
      else if (b <? 240)%N then
        match s1 with
        | String c1 (String c2 s3) =>
            match continuation c1, continuation c2 with
            | Some x1, Some x2 =>
                let cp := ((b - 224) * 4096 + x1 * 64 + x2)%N in
                if ((2048 <=? cp) && negb ((55296 <=? cp) && (cp <=? 57343)))%N
                then cons cp <$> code_points s3
                else None
            | _, _ => None
            end
        | _ => None
        end
      else if (b <? 248)%N then
        match s1 with
        | String c1 (String c2 (String c3 s4)) =>
            match continuation c1, continuation c2, continuation c3 with
            | Some x1, Some x2, Some x3 =>
                let cp := ((b - 240) * 262144 + x1 * 4096 + x2 * 64 + x3)%N in
                if ((65536 <=? cp) && (cp <=? 1114111))%N
                then cons cp <$> code_points s4
                else None
            | _, _, _ => None
            end
        | _ => None
        end
      else None
  end.

(** The blanks of Unicode beyond ASCII. *)
Definition unicode_space (cp : N) : bool :=
  ((cp =? 133) || (cp =? 160) || (cp =? 5760)
   || (8192 <=? cp) && (cp <=? 8202)
   || (cp =? 8232) || (cp =? 8233) || (cp =? 8239) || (cp =? 8287)
   || (cp =? 12288))%N.

(** The zero of each of the sixty-five runs of ten decimal digits of
    Unicode beyond ASCII, from ARABIC-INDIC DIGIT ZERO to SEGMENTED
    DIGIT ZERO. *)
Definition decimal_zeros : list N :=
  [ 1632; 1776; 1984; 2406; 2534; 2662; 2790; 2918; 3046; 3174; 3302;
    3430; 3558; 3664; 3792; 3872; 4160; 4240; 6112; 6160; 6470; 6608;
    6784; 6800; 6992; 7088; 7232; 7248; 42528; 43216; 43264; 43472;
    43504; 43600; 44016; 65296; 66720; 68912; 69734; 69872; 69942;
    70096; 70384; 70736; 70864; 71248; 71360; 71472; 71904; 72016;
    72784; 73040; 73120; 92768; 92864; 93008; 120782; 120792; 120802;
    120812; 120822; 123200; 123632; 125264; 130032 ]%N.

Definition unicode_decimal (cp : N) : option N :=
  match find (fun z => (z <=? cp) && (cp <? z + 10))%N decimal_zeros with
  | Some z => Some (cp - z)%N
  | None => None
  end.

(** What [int] and [float] read in place of [s]: the ASCII characters
    below DEL as they are, a blank for a Unicode blank, the ASCII digit
    for a decimal digit; any other character ends in [ValueError],
    which [None] stands for. *)
Fixpoint transform_decimal_and_space (cps : list N) : option string :=
  match cps with
  | [] => Some EmptyString
  | cp :: rest =>
      let c :=
        if (cp <? 127)%N then Some (ascii_of_N cp)
        else if unicode_space cp then Some " "%char
        else (fun d => ascii_of_N (48 + d)) <$> unicode_decimal cp in
      match c with
      | Some c => String c <$> transform_decimal_and_space rest
      | None => None
      end
  end.

Definition to_ascii (s : string) : option string :=
  code_points s ≫= transform_decimal_and_space.

Definition digit (c : ascii) : option Z :=
  let n := nat_of_ascii c in
  if ((48 <=? n) && (n <=? 57))%nat then Some (Z.of_nat n - 48) else None.

(** [digitpart ::= digit (["_"] digit)*], read from the front of [s]:
    the value of the digits after [acc], how many there are, and the
    rest of the text.  [after_digit] tells that the last character read
    was a digit, which is what an underscore and the end of the part
    both need. *)
Fixpoint digitpart (s : string) (acc : Z) (n : Z) (after_digit : bool)
  : option (Z * Z * string) :=
  match s with
  | String c s' =>
      match digit c with
      | Some d => digitpart s' (10 * acc + d) (n + 1) true
      | None =>
          if after_digit then
            if Ascii.eqb c "_" then digitpart s' acc n false
            else Some (acc, n, s)
          else None
      end
  | EmptyString => if after_digit then Some (acc, n, s) else None
  end.

Definition sign (s : string) : bool * string :=
  match s with
  | String "-" s' => (true, s')
  | String "+" s' => (false, s')
  | _ => (false, s)
  end.

(** The digits of [s] up to its end, at least one. *)
Fixpoint digits (s : string) (acc : Z) (after_digit : bool) : option Z :=
  match s with
  | String c s' =>
      match digit c with
      | Some d => digits s' (10 * acc + d) true
      | None => None
      end
  | EmptyString => if after_digit then Some acc else None
  end.

(** How the interpreter reads a number of its settings, with [strtol]
    on the whole of the text: blanks and a sign may come first, digits
    follow up to the end, and the value fits a C [int]. *)
Definition str_to_int (s : string) : option Z :=
  let (neg, body) := sign (lstrip s) in
  match digits body 0 false with
  | Some v =>
      let n := if neg then - v else v in
      if (-2147483648 <=? n) && (n <=? 2147483647) then Some n else None
  | None => None
  end.

(** [sys.get_int_max_str_digits()], zero standing for no limit: 4300
    unless the environment sets [PYTHONINTMAXSTRDIGITS] to zero or to a
    number from 640 on.  With any other text there the interpreter does
    not start; the default stands for that case, in which nothing runs.
    An option of the command line would come first and is taken as
    absent. *)
Definition int_max_str_digits (environ : gmap string string) : Z :=
  match environ !! "PYTHONINTMAXSTRDIGITS" with
  | None | Some EmptyString => 4300
  | Some s =>
      match str_to_int s with
      | Some n => if (n =? 0) || (640 <=? n) then n else 4300
      | None => 4300
      end
  end.

(** [int(s)] in base ten under the limit [max_str_digits]; [None] stands
    for [ValueError]. *)
Definition int_of_str (max_str_digits : Z) (s : string) : option Z :=
  match to_ascii s with
  | Some text =>
      let (neg, body) := sign (strip text) in
      match digitpart body 0 0 false with
      | Some (v, n, EmptyString) =>
          if (max_str_digits =? 0) || (n <=? max_str_digits)
          then Some (if neg then - v else v)
          else None
      | _ => None
      end
  | None => None
  end.

(** The float nearest to [m * 10^e] for [m > 0], ties to even. *)
Definition round_decimal (neg : bool) (m : positive) (e : Z) : spec_float :=
  match e with
  | Z.neg k =>
      let '(q, e', l) :=
        SFdiv_core_binary Float.prec Float.emax (Z.pos m) 0 (10 ^ Z.pos k) 0 in
      binary_round_aux Float.prec Float.emax neg q e' l
  | _ => binary_normalize Float.prec Float.emax
           (cond_Zopp neg (Z.pos m * 10 ^ e)) 0 false
  end.

Definition decimal (neg : bool) (m e : Z) : spec_float :=
  match m with
  | Z.pos p => round_decimal neg p e
  | _ => S754_zero neg
  end.

(** [exponent ::= ("e" | "E") [sign] digitpart], up to the end. *)
Definition exponent (s : string) : option Z :=
  match s with
  | EmptyString => Some 0
  | String c s' =>
      if Ascii.eqb c "e" || Ascii.eqb c "E" then
        let (neg, body) := sign s' in
        match digitpart body 0 0 false with
        | Some (v, _, EmptyString) => Some (if neg then - v else v)
        | _ => None
        end
      else None
  end.

(** [floatnumber ::= ([digitpart] "." digitpart | digitpart ["."])
    [exponent]]: the digits as one integer and the power of ten. *)
Definition floatnumber (s : string) : option (Z * Z) :=
  match s with
  | String "." s' =>
      match digitpart s' 0 0 false with
      | Some (m, k, rest) =>
          match exponent rest with
          | Some x => Some (m, x - k)
          | None => None
          end
      | None => None
      end
  | _ =>
      match digitpart s 0 0 false with
      | Some (m, _, String "." rest) =>
          match digitpart rest m 0 false with
          | Some (m', k, rest') =>
              match exponent rest' with
              | Some x => Some (m', x - k)
              | None => None
              end
          | None =>
              match exponent rest with
              | Some x => Some (m, x)
              | None => None
              end
          end
      | Some (m, _, rest) =>
          match exponent rest with
          | Some x => Some (m, x)
          | None => None
          end
      | None => None
      end
  end.

(** [float(s)]; [None] stands for [ValueError]. *)
Definition float_of_str (s : string) : option spec_float :=
  match to_ascii s with
  | Some text =>
      let (neg, body) := sign (strip text) in
      let word := lower body in
      if String.eqb word "inf" || String.eqb word "infinity" then
        Some (S754_infinity neg)
      else if String.eqb word "nan" then Some S754_nan
      else
        match floatnumber body with
        | Some (m, e) => Some (decimal neg m e)
        | None => None
        end
  | None => None
  end.

End Py.

(** ** Values and exceptions *)

(** The values JSON decoding produces, which are also the values a
    configuration holds. *)
Inductive pyval : Type :=
| PNone
| PBool (b : bool)
| PInt (n : Z)
| PFloat (f : spec_float)
| PStr (s : string)
| PList (l : list pyval)
| PDict (d : gmap string pyval).

Definition type_name (v : pyval) : string :=
  match v with
  | PNone => "NoneType"
  | PBool _ => "bool"
  | PInt _ => "int"
  | PFloat _ => "float"
  | PStr _ => "str"
  | PList _ => "list"
  | PDict _ => "dict"
  end.

(** [TypeError] carries its message and [KeyError] the missing key;
    [ValueError] carries the text that could not be converted, which
    stands for its message. *)
Inductive exn : Type :=
| ValueError (text : string)
| TypeError (msg : string)
| KeyError (key : string).

(** [str(e)] *)
Definition str (e : exn) : string :=
  match e with
  | ValueError text => text
  | TypeError msg => msg
  | KeyError key => "'" +:+ key +:+ "'"
  end.

Inductive result (A : Type) : Type :=
| Ok (a : A)
| Raise (e : exn).

Arguments Ok {A} a.
Arguments Raise {A} e.

#[global] Instance result_ret : MRet result := fun A a => Ok a.

#[global] Instance result_bind : MBind result :=
  fun A B k r =>
    match r with
    | Ok a => k a
    | Raise e => Raise e
    end.

(** [x > v] for a float [x]: defined against a number ([bool] is a
    subclass of [int]), a [TypeError] against anything else. *)
Definition float_gt (x : spec_float) (v : pyval) : result bool :=
  match v with
  | PFloat y => Ok (Float.gtb x y)
  | PInt n => Ok (Float.gtb_int x n)
  | PBool b => Ok (Float.gtb_int x (Z.b2z b))
  | _ =>
      Raise (TypeError ("'>' not supported between instances of 'float' and '"
                        +:+ type_name v +:+ "'"))
  end.

(** ** The random generator

    [random.random()] and [random.randint(a, b)] consume entropy from the
    generator.  The generator is a tape of raw draws and a cursor; each
    call reads one draw and reduces it to the documented range of the
    call: [random()] returns [k / 2^53] for an integer [0 <= k < 2^53],
    [randint(a, b)] an integer of [[a, b]]. *)

Record rng : Type := mk_rng { tape : nat -> N; cursor : nat }.

Definition Rand (A : Type) : Type := rng -> A * rng.

Definition ret {A : Type} (a : A) : Rand A := fun g => (a, g).

Definition bind {A B : Type} (c : Rand A) (k : A -> Rand B) : Rand B :=
  fun g => let (a, g') := c g in k a g'.

Notation "'let*' x ':=' c 'in' k" := (bind c (fun x => k))
  (at level 10, x name, c at level 100, k at level 200).

Definition draw : Rand N :=
  fun g => (tape g (cursor g), mk_rng (tape g) (S (cursor g))).

Definition random_random : Rand spec_float :=
  let* k := draw in
  ret (Float.of_dyadic (Z.of_N k mod 2 ^ 53) (-53)).

Definition random_randint (a b : Z) : Rand Z :=
  let* k := draw in
  ret (a + Z.of_N k mod (b - a + 1)).

(** ** Records of the program *)

Record box : Type := mk_box { x : Z; y : Z; width : Z; height : Z }.

Record point : Type := mk_point { px : Z; py : Z }.

Record detection : Type := mk_detection
  { label : string;
    confidence : spec_float;
    bounding_box : box;
    center : point }.

(** The payload of a [detection_update] event. *)
Record detection_data : Type := mk_detection_data
  { detections : list detection;
    best_target : option detection;
    processing_time : spec_float;
    screenshot_size : Z * Z;
    timestamp : string }.

(** The payload of a [bridge_update] event. *)
Record bridge_data : Type := mk_bridge_data
  { processes_sent : list pyval;
    bridge_timestamp : string;
    count : Z }.

Inductive event : Type :=
| detection_update (d : detection_data)
| bridge_update (b : bridge_data).

(** The global [detection_metrics]. *)
Record metrics : Type := mk_metrics
  { total_detections : Z;
    last_detection_time : option string;
    average_processing_time : pyval;
    successful_targets : Z }.

Definition initial_metrics : metrics := mk_metrics 0 None (PInt 0) 0.

(** The dictionary [start_detection] and [stop_detection] return. *)
Record reply : Type := mk_reply { success : bool; message : string }.

(** What an iteration of the loop reads from the clock: [time.time()]
    before and after the simulation, and [datetime.now().isoformat()] for
    the metrics and for the event. *)
Record clock : Type := mk_clock
  { start_time : spec_float;
    end_time : spec_float;
    now_metrics : string;
    now_emit : string }.

(** [max(items, key=confidence)] on a non-empty list: the first item is
    the candidate, and a later item replaces it only when its key is
    greater. *)
Fixpoint max_from (best : detection) (items : list detection) : detection :=
  match items with
  | [] => best
  | d :: rest =>
      max_from (if Float.gtb (confidence d) (confidence best) then d else best)
               rest
  end.

(** ** The detection engine *)

Module DetectionEngine.

Record t : Type := mk
  { config : gmap string pyval;
    is_running : bool;
    detection_thread : option nat }.

(** [float(os.environ.get(name, dflt))] *)
Definition float_env (environ : gmap string string) (name : string)
    (dflt : spec_float) : result spec_float :=
  match environ !! name with
  | None => Ok dflt
  | Some s =>
      match Py.float_of_str s with
      | Some f => Ok f
      | None => Raise (ValueError s)
      end
  end.

(** [int(os.environ.get(name, dflt))] *)
Definition int_env (environ : gmap string string) (name : string)
    (dflt : Z) : result Z :=
  match environ !! name with
  | None => Ok dflt
  | Some s =>
      match Py.int_of_str (Py.int_max_str_digits environ) s with
      | Some n => Ok n
      | None => Raise (ValueError s)
      end
  end.

(** [os.environ.get(name, dflt).lower() == 'true'] *)
Definition flag_env (environ : gmap string string) (name dflt : string)
  : bool :=
  String.eqb (Py.lower (default dflt (environ !! name))) "true".

(** [os.environ.get(name, dflt)] *)
Definition str_env (environ : gmap string string) (name dflt : string)
  : string :=
  default dflt (environ !! name).

Definition load_configuration (environ : gmap string string)
  : result (gmap string pyval) :=
  confidence_threshold ← float_env environ "CONFIDENCE_THRESHOLD" Float.lit_0_5;
  mouse_sensitivity ← float_env environ "MOUSE_SENSITIVITY" Float.lit_1_0;
  detection_interval ← int_env environ "DETECTION_INTERVAL" 50;
  fov ← int_env environ "FOV" 100;
  smoothing_strength ← int_env environ "SMOOTHING_STRENGTH" 5;
  trigger_delay ← int_env environ "TRIGGER_DELAY" 50;
  mret {[ "ConfidenceThreshold" := PFloat confidence_threshold;
          "MouseSensitivity" := PFloat mouse_sensitivity;
          "DetectionInterval" := PInt detection_interval;
          "EnableESP" := PBool (flag_env environ "ENABLE_ESP" "true");
          "EnableAntiRecoil" :=
            PBool (flag_env environ "ENABLE_ANTI_RECOIL" "false");
          "TargetProcess" := PStr (str_env environ "TARGET_PROCESS" "");
          "FOV" := PInt fov;
          "EnableSmoothing" :=
            PBool (flag_env environ "ENABLE_SMOOTHING" "true");
          "SmoothingStrength" := PInt smoothing_strength;
          "EnableTriggerBot" :=
            PBool (flag_env environ "ENABLE_TRIGGER_BOT" "false");
          "TriggerDelay" := PInt trigger_delay;
          "ModelPath" :=
            PStr (str_env environ "MODEL_PATH" "Models/yolov8n.onnx");
          "EnableDebugMode" :=
            PBool (flag_env environ "ENABLE_DEBUG_MODE" "true") ]}.

Definition __init__ (environ : gmap string string) : result t :=
  config ← load_configuration environ;
  mret (mk config false None).

(** [self.config = {**self.config, **config}]: the keys of [config]
    win, and unpacking anything but a mapping is a [TypeError]. *)
Definition save_configuration (self : t) (new_config : pyval) : result t :=
  match new_config with
  | PDict d => Ok (mk (d ∪ config self) (is_running self) (detection_thread self))
  | _ => Raise (TypeError ("'" +:+ type_name new_config
                           +:+ "' object is not a mapping"))
  end.

(** The loop threads that were started and have not returned, oldest
    first, and the number of threads created so far (the identifier of
    the next one). *)
Record threads : Type := mk_threads { alive : list nat; created : nat }.

Definition start_detection (self : t) (th : threads) : reply * t * threads :=
  if is_running self then
    (mk_reply false "Detection already running", self, th)
  else
    let tid := created th in
    (mk_reply true "Detection started successfully",
     mk (config self) true (Some tid),
     mk_threads (alive th ++ [tid]) (S tid)).

(** [joined] tells whether the thread saw the cleared flag and returned
    within the second that [join(timeout=1)] waits; when it did not,
    the call returns all the same and the thread stays alive. *)
Definition stop_detection (joined : bool) (self : t) (th : threads)
  : reply * t * threads :=
  if negb (is_running self) then
    (mk_reply false "Detection not running", self, th)
  else
    (mk_reply true "Detection stopped successfully",
     mk (config self) false (detection_thread self),
     match detection_thread self with
     | Some tid =>
         if joined then mk_threads (filter (λ i, i ≠ tid) (alive th)) (created th)
         else th
     | None => th
     end).

(** One turn of the body of [for _ in range(num_detections)]: the dict
    display is evaluated left to right, then the center is added. *)
Definition new_detection : Rand detection :=
  let* r := random_random in
  let* bx := random_randint 100 1400 in
  let* by_ := random_randint 100 800 in
  let* dw := random_randint 0 100 in
  let* dh := random_randint 0 100 in
  let bb := mk_box bx by_ (100 + dw) (150 + dh) in
  ret (mk_detection "person"
         (Float.add Float.lit_0_75 (Float.mul r Float.lit_0_25))
         bb
         (mk_point (x bb + width bb / 2) (y bb + height bb / 2))).

Fixpoint append_detections (n : nat) (detections : list detection)
  : Rand (list detection) :=
  match n with
  | O => ret detections
  | S n' =>
      let* d := new_detection in
      append_detections n' (detections ++ [d])
  end.

Definition _simulate_detection : Rand (list detection) :=
  let* p := random_random in
  if Float.ltb p Float.lit_0_3 then
    let* num_detections := random_randint 1 3 in
    append_detections (Z.to_nat num_detections) []
  else ret [].

(** [best_target = None], then [max(detections, key=confidence)] when
    the list is not empty. *)
Definition select_best_target (detections : list detection)
  : option detection :=
  match detections with
  | [] => None
  | d :: rest => Some (max_from d rest)
  end.

(** The body of the [try], from the simulation to the emission: the
    metrics it leaves, the generator it leaves, and the payload it
    emits or the exception that ends it early.  The sleep that follows
    touches no state and is left out; an exception is caught by the
    loop, which goes on with the next round. *)
Definition iteration (self : t) (obs : clock) (m : metrics) (g : rng)
  : metrics * rng * result detection_data :=
  let (detections, g') := _simulate_detection g in
  let processing_time :=
    Float.mul (Float.sub (end_time obs) (start_time obs)) Float.lit_1000_0 in
  let m1 := mk_metrics (total_detections m + Z.of_nat (length detections))
                       (Some (now_metrics obs))
                       (PFloat processing_time)
                       (successful_targets m) in
  let detection_data best :=
    mk_detection_data detections best processing_time (1920, 1080)
                      (now_emit obs) in
  match select_best_target detections with
  | None => (m1, g', Ok (detection_data None))
  | Some best =>
      match config self !! "ConfidenceThreshold" with
      | None => (m1, g', Raise (KeyError "ConfidenceThreshold"))
      | Some threshold =>
          match float_gt (confidence best) threshold with
          | Raise e => (m1, g', Raise e)
          | Ok hit =>
              (mk_metrics (total_detections m1)
                          (last_detection_time m1)
                          (average_processing_time m1)
                          (if hit then successful_targets m1 + 1
                           else successful_targets m1),
               g', Ok (detection_data (Some best)))
          end
      end
  end.

(** One evaluation of [while self.is_running:] and, when it holds, one
    turn of the body. *)
Inductive round : Type :=
| Returned
| Iterated (m : metrics) (g : rng) (out : result detection_data).

Definition _detection_loop (self : t) (obs : clock) (m : metrics) (g : rng)
  : round :=
  if is_running self then
    let '(m', g', out) := iteration self obs m g in Iterated m' g' out
  else Returned.

End DetectionEngine.

(** ** The state of the process

    The globals of the module, the environment, the loop threads, the
    random generator and the log of the socket.  The global
    [is_detecting] is never read nor written and is left out. *)

Record world : Type := mk_world
  { environ : gmap string string;
    detection_engine : option DetectionEngine.t;
    detection_metrics : metrics;
    bridge_processes : list pyval;
    loop_threads : DetectionEngine.threads;
    random : rng;
    emitted : list event }.

(** The state when the module has been imported: no engine yet, as under
    a WSGI server; [main] is the [__main__] block, which creates it. *)
Definition boot (env : gmap string string) (g : rng) : world :=
  mk_world env None initial_metrics [] (DetectionEngine.mk_threads [] 0) g [].

Definition set_engine (w : world) (e : DetectionEngine.t) : world :=
  mk_world (environ w) (Some e) (detection_metrics w) (bridge_processes w)
           (loop_threads w) (random w) (emitted w).

Definition set_threads (w : world) (th : DetectionEngine.threads) : world :=
  mk_world (environ w) (detection_engine w) (detection_metrics w)
           (bridge_processes w) th (random w) (emitted w).

Definition main (w : world) : result world :=
  e ← DetectionEngine.__init__ (environ w);
  mret (set_engine w e).

(** ** Requests and responses *)

Inductive http_method : Type := GET | POST.

(** [request.json]: the decoded body, or the HTTP exception the framework
    raises when the body cannot be decoded, with its status code and its
    text. *)
Inductive json_body : Type :=
| JsonValue (v : pyval)
| JsonError (code : Z) (text : string).

Record request : Type := mk_request { method : http_method; json : json_body }.

Record status_report : Type := mk_status_report
  { status_is_running : bool;
    status_metrics : metrics;
    status_configuration : gmap string pyval;
    status_bridge_processes : Z;
    status_bridge_connected : bool }.

Inductive body : Type :=
| page
| error_page
| message_body (success : bool) (message : string)
| count_body (success : bool) (message : string) (count : Z)
| configuration_body (c : gmap string pyval)
| processes_body (l : list pyval)
| status_body (s : status_report)
| health_body (status : string) (timestamp : string) (service : string).

Record response : Type := mk_response { payload : body; status_code : Z }.

Definition jsonify (b : body) : response := mk_response b 200.

(** What the framework answers when a handler lets an exception out. *)
Definition internal_server_error : response := mk_response error_page 500.

(** [if not detection_engine: detection_engine = DetectionEngine()] *)
Definition ensure_engine (w : world) : result (DetectionEngine.t * world) :=
  match detection_engine w with
  | Some e => Ok (e, w)
  | None =>
      e ← DetectionEngine.__init__ (environ w);
      mret (e, set_engine w e)
  end.

Definition index (w : world) : response * world :=
  (mk_response page 200, w).

Definition start_detection (w : world) : response * world :=
  match ensure_engine w with
  | Raise _ => (internal_server_error, w)
  | Ok (self, w1) =>
      let '(r, self', th) :=
        DetectionEngine.start_detection self (loop_threads w1) in
      (jsonify (message_body (success r) (message r)),
       set_threads (set_engine w1 self') th)
  end.

Definition stop_detection (joined : bool) (w : world) : response * world :=
  match detection_engine w with
  | Some self =>
      let '(r, self', th) :=
        DetectionEngine.stop_detection joined self (loop_threads w) in
      (jsonify (message_body (success r) (message r)),
       set_threads (set_engine w self') th)
  | None =>
      (jsonify (message_body false "Detection engine not initialized"), w)
  end.

Definition configuration (req : request) (w : world) : response * world :=
  match ensure_engine w with
  | Raise _ => (internal_server_error, w)
  | Ok (self, w1) =>
      match method req with
      | POST =>
          match json req with
          | JsonError code _ => (mk_response error_page code, w1)
          | JsonValue new_config =>
              match DetectionEngine.save_configuration self new_config with
              | Ok self' =>
                  (jsonify (message_body true "Configuration saved successfully"),
                   set_engine w1 self')
              | Raise e => (mk_response (message_body false (str e)) 400, w1)
              end
          end
      | GET => (jsonify (configuration_body (DetectionEngine.config self)), w1)
      end
  end.

(** The POST branch of [processes] goes through the global
    [bridge_processes] four times: it assigns it (line 542), and reads
    it again for the list of the event (line 548), for the count of the
    event (line 550) and for the count of the answer (line 556); the
    read for the log (line 544) leaves no trace.  Each access has a
    function of its own here, so that an overlapping request can be
    placed between two of them. *)

(** [bridge_processes = data if isinstance(data, list) else []] *)
Definition processes_assign (data : pyval) (w : world) : world :=
  mk_world (environ w) (detection_engine w) (detection_metrics w)
           (match data with PList l => l | _ => [] end)
           (loop_threads w) (random w) (emitted w).

(** The dictionary of lines 547 to 551, when [l] is what line 548 has
    read: line 550 reads the global again for the count. *)
Definition processes_event (l : list pyval) (now : string) (w : world)
  : bridge_data :=
  mk_bridge_data l now (Z.of_nat (length (bridge_processes w))).

Definition processes_emit (l : list pyval) (now : string) (w : world)
  : world :=
  mk_world (environ w) (detection_engine w) (detection_metrics w)
           (bridge_processes w) (loop_threads w) (random w)
           (bridge_update (processes_event l now w) :: emitted w).

(** The answer of lines 553 to 557, whose count is read from the global
    once more. *)
Definition processes_reply (w : world) : response :=
  jsonify (count_body true "Processes received successfully"
                      (Z.of_nat (length (bridge_processes w)))).

(** The handler when nothing runs between its accesses. *)
Definition processes (req : request) (now : string) (w : world)
  : response * world :=
  match method req with
  | POST =>
      match json req with
      | JsonError _ text => (mk_response (message_body false text) 400, w)
      | JsonValue data =>
          let w1 := processes_assign data w in
          let w2 := processes_emit (bridge_processes w1) now w1 in
          (processes_reply w2, w2)
      end
  | GET => (jsonify (processes_body (bridge_processes w)), w)
  end.

Definition status (w : world) : response * world :=
  (jsonify (status_body
     (mk_status_report
        (match detection_engine w with
         | Some e => DetectionEngine.is_running e
         | None => false
         end)
        (detection_metrics w)
        (match detection_engine w with
         | Some e => DetectionEngine.config e
         | None => ∅
         end)
        (Z.of_nat (length (bridge_processes w)))
        (0 <? Z.of_nat (length (bridge_processes w))))),
   w).

Definition health (now : string) (w : world) : response * world :=
  (jsonify (health_body "healthy" now "Aimmy V2 Educational Edition"), w).

(** ** Runs of the process

    A run is a sequence of steps, each a request served by its handler
    or a round of the loop in one of the threads, with nothing else
    running in between: the requests are served one at a time.  The
    module has no lock, so that handlers may also overlap; the POSTs of
    processes running that way are the subject of [Overlap] below. *)

Inductive action : Type :=
| call_index
| call_start_detection
| call_stop_detection (joined : bool)
| call_configuration (req : request)
| call_processes (req : request) (now : string)
| call_status
| call_health (now : string)
| loop_round (tid : nat) (obs : clock).

Definition publish (out : result detection_data) (log : list event)
  : list event :=
  match out with
  | Ok d => detection_update d :: log
  | Raise _ => log
  end.

(** A round of the loop in thread [tid]: the thread returns when the flag
    is cleared, and goes through the body otherwise. *)
Definition thread_round (tid : nat) (obs : clock) (w : world) : world :=
  if bool_decide (tid ∈ DetectionEngine.alive (loop_threads w)) then
    match detection_engine w with
    | Some self =>
        match DetectionEngine._detection_loop self obs (detection_metrics w)
                                              (random w) with
        | DetectionEngine.Returned =>
            set_threads w
              (DetectionEngine.mk_threads
                 (filter (λ i, i ≠ tid) (DetectionEngine.alive (loop_threads w)))
                 (DetectionEngine.created (loop_threads w)))
        | DetectionEngine.Iterated m g out =>
            mk_world (environ w) (detection_engine w) m (bridge_processes w)
                     (loop_threads w) g (publish out (emitted w))
        end
    | None => w
    end
  else w.

Definition step (a : action) (w : world) : world :=
  match a with
  | call_index => snd (index w)
  | call_start_detection => snd (start_detection w)
  | call_stop_detection joined => snd (stop_detection joined w)
  | call_configuration req => snd (configuration req w)
  | call_processes req now => snd (processes req now w)
  | call_status => snd (status w)
  | call_health now => snd (health now w)
  | loop_round tid obs => thread_round tid obs w
  end.

Definition run (actions : list action) (w : world) : world :=
  fold_left (fun w a => step a w) actions w.

(** ** Predicates of the statements *)

(** What the specification says of a generated record. *)
Definition well_formed (d : detection) : Prop :=
  label d = "person" /\
  Float.leb Float.lit_0_75 (confidence d) = true /\
  Float.leb (confidence d) Float.lit_1_0 = true /\
  100 <= x (bounding_box d) <= 1400 /\
  100 <= y (bounding_box d) <= 800 /\
  100 <= width (bounding_box d) <= 200 /\
  150 <= height (bounding_box d) <= 250 /\
  center d = mk_point (x (bounding_box d) + width (bounding_box d) / 2)
                      (y (bounding_box d) + height (bounding_box d) / 2).

(** A payload is coherent when its best target is [None] exactly on an
    empty list of detections and is otherwise one of the detections. *)
Definition coherent (d : detection_data) : Prop :=
  (best_target d = None <-> detections d = []) /\
  (forall b, best_target d = Some b -> b ∈ detections d).

(** Whether the confidence of [best] is greater than the threshold the
    configuration of [self] holds: neither a missing threshold nor one
    that is not a number counts. *)
Definition exceeds_threshold (self : DetectionEngine.t) (best : detection)
  : bool :=
  match DetectionEngine.config self !! "ConfidenceThreshold" with
  | Some threshold =>
      match float_gt (confidence best) threshold with
      | Ok hit => hit
      | Raise _ => false
      end
  | None => false
  end.

(** Every [stop] request of the run finds the loop thread gone within the
    timeout of its [join]. *)
Definition joins_in_time (actions : list action) : Prop :=
  Forall (fun a => a <> call_stop_detection false) actions.

(** The flag and the threads agree: a running engine has exactly its own
    thread alive, a stopped or missing one has none. *)
Definition single_loop (w : world) : Prop :=
  match detection_engine w with
  | Some self =>
      if DetectionEngine.is_running self then
        exists tid, DetectionEngine.detection_thread self = Some tid /\
                    DetectionEngine.alive (loop_threads w) = [tid]
      else DetectionEngine.alive (loop_threads w) = []
  | None => DetectionEngine.alive (loop_threads w) = []
  end.

(** The recognized options as the specification lists them: the key of
    the configuration, the environment input it is read from, and its
    type with the documented default. *)
Inductive option_kind : Type :=
| float_option (dflt : spec_float)
| int_option (dflt : Z)
| bool_option (dflt : string)
| string_option (dflt : string).

Definition recognized_options : list (string * string * option_kind) :=
  [ ("ConfidenceThreshold", "CONFIDENCE_THRESHOLD", float_option Float.lit_0_5);
    ("MouseSensitivity", "MOUSE_SENSITIVITY", float_option Float.lit_1_0);
    ("DetectionInterval", "DETECTION_INTERVAL", int_option 50);
    ("EnableESP", "ENABLE_ESP", bool_option "true");
    ("EnableAntiRecoil", "ENABLE_ANTI_RECOIL", bool_option "false");
    ("TargetProcess", "TARGET_PROCESS", string_option "");
    ("FOV", "FOV", int_option 100);
    ("EnableSmoothing", "ENABLE_SMOOTHING", bool_option "true");
    ("SmoothingStrength", "SMOOTHING_STRENGTH", int_option 5);
    ("EnableTriggerBot", "ENABLE_TRIGGER_BOT", bool_option "false");
    ("TriggerDelay", "TRIGGER_DELAY", int_option 50);
    ("ModelPath", "MODEL_PATH", string_option "Models/yolov8n.onnx");
    ("EnableDebugMode", "ENABLE_DEBUG_MODE", bool_option "true") ].

(** The value an option takes from its input [name] in the
    environment: the default when the input is unset, the converted
    text when it is set, and nothing when the text of a numeric option
    is not one that [float] or [int] accepts.  A boolean option is true
    exactly on the texts that lowercase to "true". *)
Definition read_option (env : gmap string string) (name : string)
    (k : option_kind) : option pyval :=
  match k, env !! name with
  | float_option dflt, None => Some (PFloat dflt)
  | float_option _, Some s => PFloat <$> Py.float_of_str s
  | int_option dflt, None => Some (PInt dflt)
  | int_option _, Some s =>
      PInt <$> Py.int_of_str (Py.int_max_str_digits env) s
  | bool_option dflt, input =>
      Some (PBool (String.eqb (Py.lower (default dflt input)) "true"))
  | string_option dflt, input => Some (PStr (default dflt input))
  end.

(** The configuration of the documented defaults. *)
Definition default_configuration : gmap string pyval :=
  {[ "ConfidenceThreshold" := PFloat Float.lit_0_5;
     "MouseSensitivity" := PFloat Float.lit_1_0;
     "DetectionInterval" := PInt 50;
     "EnableESP" := PBool true;
     "EnableAntiRecoil" := PBool false;
     "TargetProcess" := PStr "";
     "FOV" := PInt 100;
     "EnableSmoothing" := PBool true;
     "SmoothingStrength" := PInt 5;
     "EnableTriggerBot" := PBool false;
     "TriggerDelay" := PInt 50;
     "ModelPath" := PStr "Models/yolov8n.onnx";
     "EnableDebugMode" := PBool true ]}.

(** No record of the batch has a NaN for confidence. *)
Definition no_nan (batch : list detection) : Prop :=
  Forall (fun d => Float.is_nan (confidence d) = false) batch.

(** [best] is the first record of [batch] with the greatest confidence:
    it stands at some position [i], no record has a greater confidence,
    and every record before [i] has a smaller one. *)
Definition first_maximum (batch : list detection) (best : detection) : Prop :=
  exists i : nat,
    batch !! i = Some best /\
    (forall d, d ∈ batch ->
               Float.leb (confidence d) (confidence best) = true) /\
    (forall (j : nat) d, (j < i)%nat -> batch !! j = Some d ->
               Float.ltb (confidence d) (confidence best) = true).

(** The position of a float that is not a NaN in the order of
    [SFcompare]: its class (infinities, signs and zero), then exponent and
    mantissa, compared lexicographically. *)
Definition rank (f : spec_float) : Z * Z * Z :=
  match f with
  | S754_nan => (0, 0, 0)
  | S754_zero _ => (0, 0, 0)
  | S754_infinity true => (-2, 0, 0)
  | S754_infinity false => (2, 0, 0)
  | S754_finite true m e => (-1, - e, Z.neg m)
  | S754_finite false m e => (1, e, Z.pos m)
  end.

Definition lex_compare (a b : Z * Z * Z) : comparison :=
  let '(a1, a2, a3) := a in
  let '(b1, b2, b3) := b in
  match a1 ?= b1 with
  | Eq => match a2 ?= b2 with
          | Eq => a3 ?= b3
          | c => c
          end
  | c => c
  end.

(** A float of [[0, 1)] in canonical form: [+0.0], or a 53-digit mantissa
    with an exponent between [-105] and [-53]. *)
Definition unit_float (r : spec_float) : Prop :=
  r = S754_zero false \/
  exists m e, r = S754_finite false m e /\
              Z.pos (digits2_pos m) = 53 /\ -105 <= e <= -53.

(** ** Sample data *)

Definition sample_rng : rng := mk_rng (fun _ => 5%N) 0.

(** The draws that lead to the greatest confidence: a batch of one
    record, for which [random.random()] returns [1 - 2^-53]. *)
Definition edge_rng : rng :=
  mk_rng (fun n => if Nat.eqb n 2 then 9007199254740991%N else 0%N) 0.

Definition sample_clock : clock :=
  mk_clock Float.lit_0_5 Float.lit_0_75 "2024-01-01T00:00:00"
           "2024-01-01T00:00:01".

Definition sample_detection (c : spec_float) (bx : Z) : detection :=
  mk_detection "person" c (mk_box bx 100 100 150)
               (mk_point (bx + 50) 175).

(** Three records, the last two sharing the greatest confidence. *)
Definition sample_batch : list detection :=
  [ sample_detection Float.lit_0_75 100;
    sample_detection Float.lit_1_0 200;
    sample_detection Float.lit_1_0 300 ].

(** An environment that sets the pause of the loop to five seconds. *)
Definition slow_environ : gmap string string :=
  {[ "DETECTION_INTERVAL" := "5000" ]}.

Definition sample_engine : DetectionEngine.t :=
  DetectionEngine.mk default_configuration false None.

Definition post (v : pyval) : request := mk_request POST (JsonValue v).

Definition get : request := mk_request GET (JsonValue PNone).

(** ** Notions of the further properties *)

(** The response of a step: that of the handler, and none for a round
    of the loop. *)
Definition answer (a : action) (w : world) : option response :=
  match a with
  | call_index => Some (fst (index w))
  | call_start_detection => Some (fst (start_detection w))
  | call_stop_detection joined => Some (fst (stop_detection joined w))
  | call_configuration req => Some (fst (configuration req w))
  | call_processes req now => Some (fst (processes req now w))
  | call_status => Some (fst (status w))
  | call_health now => Some (fst (health now w))
  | loop_round _ _ => None
  end.

(** The values [float.__gt__] accepts on its right. *)
Definition is_number (v : pyval) : bool :=
  match v with
  | PBool _ | PInt _ | PFloat _ => true
  | _ => false
  end.

(** The box of a record lies within a frame of the given width and
    height, and its center lies within the box. *)
Definition inside_frame (size : Z * Z) (d : detection) : Prop :=
  0 <= x (bounding_box d) /\
  x (bounding_box d) + width (bounding_box d) <= fst size /\
  0 <= y (bounding_box d) /\
  y (bounding_box d) + height (bounding_box d) <= snd size.

Definition center_inside_box (d : detection) : Prop :=
  x (bounding_box d) <= px (center d)
  <= x (bounding_box d) + width (bounding_box d) /\
  y (bounding_box d) <= py (center d)
  <= y (bounding_box d) + height (bounding_box d).

(** The steps of a run that are a POST of processes with a decodable
    body, a POST of a configuration with a decodable body, a start
    request, a round of the loop. *)
Definition is_processes_post (a : action) : bool :=
  match a with
  | call_processes (mk_request POST (JsonValue _)) _ => true
  | _ => false
  end.

Definition is_configuration_post (a : action) : bool :=
  match a with
  | call_configuration (mk_request POST (JsonValue _)) => true
  | _ => false
  end.

Definition is_start (a : action) : bool :=
  match a with
  | call_start_detection => true
  | _ => false
  end.

Definition is_round (a : action) : bool :=
  match a with
  | loop_round _ _ => true
  | _ => false
  end.

Definition is_bridge_update (ev : event) : bool :=
  match ev with
  | bridge_update _ => true
  | detection_update _ => false
  end.

(** The payload of the most recent [bridge_update] of a log, which has
    its newest event first. *)
Fixpoint last_bridge_update (log : list event) : option bridge_data :=
  match log with
  | [] => None
  | bridge_update b :: _ => Some b
  | detection_update _ :: rest => last_bridge_update rest
  end.

(** The texts that [.lower()] turns into "true". *)
Definition spellings_of_true : list string :=
  [ "true"; "truE"; "trUe"; "trUE"; "tRue"; "tRuE"; "tRUe"; "tRUE";
    "True"; "TruE"; "TrUe"; "TrUE"; "TRue"; "TRuE"; "TRUe"; "TRUE" ].

(** The engine, when there is one, holds every recognized key. *)
Definition holds_recognized_keys (w : world) : Prop :=
  match detection_engine w with
  | Some self =>
      Forall (fun o => is_Some (DetectionEngine.config self !! fst (fst o)))
             recognized_options
  | None => True
  end.

(** How many steps of a run are rounds of the loop, how many are
    accepted POSTs of processes, and how many events of a log are
    [bridge_update]s. *)
Definition rounds (actions : list action) : nat :=
  length (filter (fun a => is_round a = true) actions).

Definition accepted_posts (actions : list action) : nat :=
  length (filter (fun a => is_processes_post a = true) actions).

Definition bridge_updates (log : list event) : nat :=
  length (filter (fun ev => is_bridge_update ev = true) log).

(** Before any start: no thread, no running engine, untouched metrics
    and generator, and no [detection_update] in the log. *)
Definition never_started (g : rng) (w : world) : Prop :=
  DetectionEngine.alive (loop_threads w) = [] /\
  match detection_engine w with
  | Some self => DetectionEngine.is_running self = false
  | None => True
  end /\
  detection_metrics w = initial_metrics /\
  random w = g /\
  Forall (fun ev => is_bridge_update ev = true) (emitted w).

(** What the flag [is_running] is after a request to start or to stop,
    whatever the answer to the request. *)
Definition switch (running : bool) (a : action) : bool :=
  match a with
  | call_start_detection => true
  | call_stop_detection _ => false
  | _ => running
  end.

(** The stored list of processes is the one the most recent
    [bridge_update] of the log carries, with its length as count; it is
    empty when there is none. *)
Definition log_agrees (w : world) : Prop :=
  match last_bridge_update (emitted w) with
  | Some b =>
      processes_sent b = bridge_processes w /\
      count b = Z.of_nat (length (bridge_processes w))
  | None => bridge_processes w = []
  end.

(** An environment with an input that [int] does not accept. *)
Definition malformed_environ : gmap string string := {[ "FOV" := "wide" ]}.

(** ** Overlapping POSTs of processes

    Several POSTs of processes may be in flight at once, each between
    two of its accesses to [bridge_processes], while other requests are
    served and the loop goes through its rounds.  A handler in flight
    holds what it has read so far. *)

Module Overlap.

Inductive in_flight : Type :=
| at_assign (data : pyval) (now : string)   (* before line 542 *)
| at_list (now : string)                    (* before the read of line 548 *)
| at_count (l : list pyval) (now : string)  (* before the read of line 550 *)
| at_reply                                  (* before the read of line 556 *)
| replied (r : response).

(** The handler goes to its next access. *)
Definition advance (h : in_flight) (w : world) : in_flight * world :=
  match h with
  | at_assign data now => (at_list now, processes_assign data w)
  | at_list now => (at_count (bridge_processes w) now, w)
  | at_count l now => (at_reply, processes_emit l now w)
  | at_reply => (replied (processes_reply w), w)
  | replied r => (h, w)
  end.

(** The globals, and the POSTs of processes in flight or answered, in
    the order of their arrival. *)
Record system : Type := mk_system
  { shared : world;
    handlers : list in_flight }.

(** What happens next: a POST of processes with a decodable body enters
    its handler, the handler of index [i] goes to its next access, or
    something else (another request, a round of the loop, or a POST of
    processes that nothing interrupts) runs as a step of [run]. *)
Inductive move : Type :=
| arrive (data : pyval) (now : string)
| resume (i : nat)
| alone (a : action).

Definition make (m : move) (s : system) : system :=
  match m with
  | arrive data now => mk_system (shared s) (handlers s ++ [at_assign data now])
  | resume i =>
      match handlers s !! i with
      | Some h =>
          let (h', w') := advance h (shared s) in
          mk_system w' (<[i := h']> (handlers s))
      | None => s
      end
  | alone a => mk_system (step a (shared s)) (handlers s)
  end.

Definition run (moves : list move) (s : system) : system :=
  fold_left (fun s m => make m s) moves s.

(** The move assigns [bridge_processes]. *)
Definition assigns (m : move) (s : system) : bool :=
  match m with
  | arrive _ _ => false
  | resume i =>
      match handlers s !! i with
      | Some (at_assign _ _) => true
      | _ => false
      end
  | alone a => is_processes_post a
  end.

(** No move of the sequence assigns [bridge_processes]. *)
Fixpoint undisturbed (moves : list move) (s : system) : bool :=
  match moves with
  | [] => true
  | m :: rest => negb (assigns m s) && undisturbed rest (make m s)
  end.

Definition is_replied (h : in_flight) : bool :=
  match h with
  | replied _ => true
  | _ => false
  end.

(** Every POST of processes that has arrived is answered. *)
Definition idle (s : system) : bool := forallb is_replied (handlers s).

(** The POSTs of processes are served one at a time: none enters its
    handler, or runs alone, while another is in flight.  Everything
    else may run at any point. *)
Definition admits (m : move) (s : system) : bool :=
  match m with
  | arrive _ _ => idle s
  | resume _ => true
  | alone a => if is_processes_post a then idle s else true
  end.

Fixpoint one_at_a_time (moves : list move) (s : system) : bool :=
  match moves with
  | [] => true
  | m :: rest => admits m s && one_at_a_time rest (make m s)
  end.

(** The process when it has been imported, and no request yet. *)
Definition boot (env : gmap string string) (g : rng) : system :=
  mk_system (boot env g) [].

End Overlap.

(** What a POST of processes in flight needs of the globals for the
    log to agree with the stored list once it has answered: nothing
    between its assignment and its read of the list, that the list it
    has read is the stored one before it emits, and the agreement
    itself at its other points. *)
Definition on_course (h : Overlap.in_flight) (w : world) : Prop :=
  match h with
  | Overlap.at_list _ => True
  | Overlap.at_count l _ => l = bridge_processes w
  | _ => log_agrees w
  end.

(** At most the last POST of processes is in flight, and it is on
    course. *)
Definition one_in_flight (s : Overlap.system) : Prop :=
  (Overlap.handlers s = [] /\ log_agrees (Overlap.shared s)) \/
  exists (before : list Overlap.in_flight) (h : Overlap.in_flight),
    Overlap.handlers s = before ++ [h] /\
    forallb Overlap.is_replied before = true /\
    on_course h (Overlap.shared s).

(** Two executables and a third, as a bridge posts them. *)
Definition two_processes : pyval := PList [PStr "a.exe"; PStr "b.exe"].

Definition one_process : pyval := PList [PStr "c.exe"].

(** A text from its bytes, and the text of [n] digits 1. *)
Definition text_of_bytes (l : list Z) : string :=
  string_of_list_ascii (map (fun b => ascii_of_N (Z.to_N b)) l).

Definition ones (n : nat) : string :=
  string_of_list_ascii (repeat "1"%char n).

(** * Facts about binary64 arithmetic *)

Section FloatFacts.

Lemma digits2_pos_log2 (p : positive) :
  Z.pos (digits2_pos p) = Z.log2 (Z.pos p) + 1.
Proof.
  assert (Hsize : forall q, digits2_pos q = Pos.size q)
    by (induction q as [q IH | q IH |]; simpl; congruence).
  destruct p as [q | q |]; simpl; rewrite ?Hsize; lia.
Qed.

Lemma digits2_pos_unique (p : positive) (n : Z) :
  2 ^ (n - 1) <= Z.pos p < 2 ^ n -> Z.pos (digits2_pos p) = n.
Proof.
  intros H. rewrite digits2_pos_log2.
  assert (Hn : 0 < n).
  { destruct (Z_lt_le_dec 0 n) as [Hlt | Hle]; [exact Hlt |].
    assert (2 ^ n <= 1); [| lia].
    destruct (Z.eq_dec n 0) as [-> | Hne]; [simpl; lia |].
    rewrite Z.pow_neg_r; lia. }
  rewrite (Z.log2_unique (Z.pos p) (n - 1)); [lia | lia |].
  replace (Z.succ (n - 1)) with n by lia. exact H.
Qed.

Lemma digits2_pos_bounds (p : positive) :
  2 ^ (Z.pos (digits2_pos p) - 1) <= Z.pos p < 2 ^ Z.pos (digits2_pos p).
Proof.
  rewrite digits2_pos_log2.
  replace (Z.log2 (Z.pos p) + 1 - 1) with (Z.log2 (Z.pos p)) by lia.
  apply (Z.log2_spec (Z.pos p)). lia.
Qed.

Lemma shift_left_value (p d : positive) :
  Z.pos (Pos.iter xO p d) = Z.pos p * 2 ^ Z.pos d.
Proof.
  change (Pos.iter xO p d) with (shift_pos d p).
  rewrite shift_pos_correct, Z.pow_pos_fold. lia.
Qed.

Lemma shr_1_m (r : shr_record) :
  0 <= shr_m r -> shr_m (shr_1 r) = shr_m r / 2.
Proof.
  destruct r as [m rb sb]; cbn [shr_m]; intros H.
  destruct m as [| p | p]; [reflexivity | | lia].
  destruct p as [q | q |]; cbn [shr_1 shr_m].
  - rewrite (Pos2Z.inj_xI q). apply Z.div_unique with 1; lia.
  - rewrite (Pos2Z.inj_xO q). apply Z.div_unique with 0; lia.
  - reflexivity.
Qed.

Lemma shr_iter_m (n : positive) :
  forall r, 0 <= shr_m r ->
    shr_m (SpecFloat.iter_pos shr_1 n r) = shr_m r / 2 ^ Z.pos n.
Proof.
  induction n as [n IH | n IH |]; intros r Hr; cbn [SpecFloat.iter_pos].
  - assert (H1 : 0 <= shr_m (shr_1 r))
      by (rewrite shr_1_m by exact Hr; apply Z.div_pos; lia).
    assert (H2 : 0 <= shr_m (SpecFloat.iter_pos shr_1 n (shr_1 r)))
      by (rewrite IH by exact H1; apply Z.div_pos; lia).
    rewrite (IH _ H2), (IH _ H1), (shr_1_m _ Hr).
    rewrite !Z.div_div by lia. f_equal.
    rewrite (Pos2Z.inj_xI n), Z.pow_add_r, Z.pow_mul_r by lia.
    change (2 ^ 2) with 4. change (2 ^ 1) with 2.
    replace (4 ^ Z.pos n) with (2 ^ Z.pos n * 2 ^ Z.pos n)
      by (rewrite <- Z.pow_mul_l; reflexivity).
    ring.
  - assert (H1 : 0 <= shr_m (SpecFloat.iter_pos shr_1 n r))
      by (rewrite IH by exact Hr; apply Z.div_pos; lia).
    rewrite (IH _ H1), (IH _ Hr).
    rewrite Z.div_div by lia. f_equal.
    rewrite (Pos2Z.inj_xO n), Z.pow_mul_r by lia.
    change (2 ^ 2) with 4.
    rewrite <- Z.pow_mul_l. reflexivity.
  - rewrite (shr_1_m _ Hr). reflexivity.
Qed.

Lemma fexp_binary64 (e : Z) :
  fexp Float.prec Float.emax e = Z.max (e - 53) (-1074).
Proof. reflexivity. Qed.

Lemma shr_fexp_canonical (m : positive) (e : Z) :
  Z.pos (digits2_pos m) = 53 -> -1074 <= e ->
  shr_fexp Float.prec Float.emax (Z.pos m) e loc_Exact
  = (Build_shr_record (Z.pos m) false false, e).
Proof.
  intros Hd He. unfold shr_fexp. rewrite fexp_binary64.
  cbn [Zdigits2]. rewrite Hd.
  replace (Z.max (53 + e - 53) (-1074) - e) with 0 by lia.
  reflexivity.
Qed.

(** Rounding a mantissa that already has 53 digits changes nothing. *)
Lemma binary_round_aux_canonical (s : bool) (m : positive) (e : Z) :
  Z.pos (digits2_pos m) = 53 -> -1074 <= e <= 971 ->
  binary_round_aux Float.prec Float.emax s (Z.pos m) e loc_Exact
  = S754_finite s m e.
Proof.
  intros Hd [He1 He2]. unfold binary_round_aux.
  rewrite (shr_fexp_canonical m e Hd He1).
  cbn [shr_m loc_of_shr_record round_nearest_even].
  rewrite (shr_fexp_canonical m e Hd He1). cbn [shr_m].
  change (Float.emax - Float.prec) with 971.
  destruct (Z.leb_spec e 971); [reflexivity | lia].
Qed.

Lemma shl_align_value (m : positive) (e e' : Z) :
  e' <= e ->
  snd (shl_align m e e') = e' /\
  Z.pos (fst (shl_align m e e')) = Z.pos m * 2 ^ (e - e').
Proof.
  intros Hle. unfold shl_align.
  destruct (e' - e) as [| d | d] eqn:Hd; cbn [fst snd]; try lia.
  - replace (e - e') with 0 by lia. split; lia.
  - rewrite shift_left_value. replace (e - e') with (Z.pos d) by lia.
    split; [reflexivity | lia].
Qed.

(** [random.random()] returns a canonical float of [[0, 1)]. *)
Lemma of_dyadic_unit (k : Z) :
  0 <= k < 2 ^ 53 -> unit_float (Float.of_dyadic k (-53)).
Proof.
  intros Hk. destruct k as [| p | p]; [left; reflexivity | | lia].
  right. unfold Float.of_dyadic, binary_normalize, binary_round.
  pose proof (digits2_pos_bounds p) as Hb.
  set (d := Z.pos (digits2_pos p)) in *.
  assert (Hd : 1 <= d <= 53).
  { split; [subst d; lia |].
    destruct (Z_le_gt_dec d 53) as [Hle | Hgt]; [exact Hle |].
    assert (2 ^ 53 <= 2 ^ (d - 1)) by (apply Z.pow_le_mono_r; lia). lia. }
  rewrite fexp_binary64.
  replace (Z.max (d + -53 - 53) (-1074)) with (d - 106) by lia.
  destruct (shl_align_value p (-53) (d - 106)) as [He Hm]; [lia |].
  destruct (shl_align p (-53) (d - 106)) as [mz ez]; cbn [fst snd] in He, Hm.
  subst ez. exists mz, (d - 106).
  assert (Hmz : Z.pos (digits2_pos mz) = 53).
  { apply digits2_pos_unique. rewrite Hm.
    replace (-53 - (d - 106)) with (53 - d) by lia.
    replace (2 ^ (53 - 1)) with (2 ^ (d - 1) * 2 ^ (53 - d))
      by (rewrite <- Z.pow_add_r by lia; f_equal; lia).
    replace (2 ^ 53) with (2 ^ d * 2 ^ (53 - d))
      by (rewrite <- Z.pow_add_r by lia; f_equal; lia).
    assert (0 < 2 ^ (53 - d)) by (apply Z.pow_pos_nonneg; lia).
    nia. }
  split; [| split; [exact Hmz | lia]].
  apply binary_round_aux_canonical; [exact Hmz | lia].
Qed.

(** Multiplying by [0.25] only lowers the exponent by two. *)
Lemma mul_quarter (m : positive) (e : Z) :
  Z.pos (digits2_pos m) = 53 -> -105 <= e <= -53 ->
  Float.mul (S754_finite false m e) Float.lit_0_25
  = S754_finite false m (e - 2).
Proof.
  intros Hd He. unfold Float.mul, Float.lit_0_25, SFmul, binary_round_aux.
  replace (m * 4503599627370496)%positive with (Pos.iter xO m 52)
    by (rewrite Pos.mul_comm; reflexivity).
  assert (HM : Z.pos (digits2_pos (Pos.iter xO m 52)) = 105).
  { apply digits2_pos_unique. rewrite shift_left_value.
    pose proof (digits2_pos_bounds m) as Hb. rewrite Hd in Hb.
    change (2 ^ (105 - 1)) with (2 ^ (53 - 1) * 2 ^ 52).
    change (2 ^ 105) with (2 ^ 53 * 2 ^ 52).
    assert (0 < 2 ^ 52) by reflexivity. nia. }
  unfold shr_fexp at 1. rewrite fexp_binary64. cbn [Zdigits2]. rewrite HM.
  replace (Z.max (105 + (e + -54) - 53) (-1074) - (e + -54)) with 52 by lia.
  cbn [shr shr_record_of_loc SpecFloat.iter_pos Pos.iter shr_1 xorb orb].
  cbn [shr_m loc_of_shr_record round_nearest_even].
  rewrite shr_fexp_canonical by (try exact Hd; lia). cbn [shr_m].
  change (Float.emax - Float.prec) with 971.
  destruct (Z.leb_spec (e + -54 + 52) 971); [f_equal; lia | lia].
Qed.

Lemma round_nearest_even_bounds (mx : Z) (l : location) :
  mx <= round_nearest_even mx l <= mx + 1.
Proof.
  destruct l as [| [ | | ]]; cbn [round_nearest_even];
    try destruct (Z.even mx); lia.
Qed.

(** Adding [0.75] to a canonical float of [(0, 0.25)]: the sum is
    rounded to 53 digits at exponent [-53], and a carry out of the
    rounding gives exactly [1.0]. *)
Lemma add_three_quarters (m : positive) (e : Z) :
  Z.pos (digits2_pos m) = 53 -> -107 <= e <= -55 ->
  match Float.add Float.lit_0_75 (S754_finite false m e) with
  | S754_finite false m' e' =>
      (e' = -53 /\ 6755399441055744 <= Z.pos m' < 9007199254740992) \/
      (e' = -52 /\ m' = 4503599627370496%positive)
  | _ => False
  end.
Proof.
  intros Hd He. unfold Float.add, Float.lit_0_75, SFadd.
  replace (Z.min (-53) e) with e by lia.
  destruct (shl_align_value 6755399441055744 (-53) e) as [_ Hc]; [lia |].
  destruct (shl_align_value m e e) as [_ Hm]; [lia |].
  set (c := fst (shl_align 6755399441055744 (-53) e)) in *.
  set (m0 := fst (shl_align m e e)) in *.
  replace (e - e) with 0 in Hm by lia. rewrite Z.mul_1_r in Hm.
  cbn [cond_Zopp].
  change (Z.pos c + Z.pos m0) with (Z.pos (c + m0)). cbn [binary_normalize].
  pose proof (digits2_pos_bounds m) as Hb. rewrite Hd in Hb.
  change (2 ^ (53 - 1)) with 4503599627370496 in Hb.
  change (2 ^ 53) with 9007199254740992 in Hb.
  set (d := -53 - e) in *.
  assert (Hp : 4 <= 2 ^ d)
    by (change 4 with (2 ^ 2); apply Z.pow_le_mono_r; lia).
  assert (HM : Z.pos (c + m0) = 6755399441055744 * 2 ^ d + Z.pos m)
    by (rewrite Pos2Z.inj_add, Hc, Hm; reflexivity).
  assert (HdM : Z.pos (digits2_pos (c + m0)) = 53 + d).
  { apply digits2_pos_unique. rewrite HM.
    replace (53 + d - 1) with (52 + d) by lia.
    rewrite !Z.pow_add_r by lia.
    change (2 ^ 52) with 4503599627370496.
    change (2 ^ 53) with 9007199254740992. nia. }
  unfold binary_round. rewrite fexp_binary64, HdM.
  replace (Z.max (53 + d + e - 53) (-1074)) with (-53) by lia.
  unfold shl_align. fold d.
  destruct d as [| dp | dp] eqn:Hdp; try lia.
  unfold binary_round_aux.
  unfold shr_fexp at 1. rewrite fexp_binary64. cbn [Zdigits2]. rewrite HdM.
  replace (Z.max (53 + Z.pos dp + e - 53) (-1074) - e) with (Z.pos dp) by lia.
  cbn [shr shr_record_of_loc].
  set (r := SpecFloat.iter_pos shr_1 dp _).
  assert (Hq : shr_m r = Z.pos (c + m0) / 2 ^ Z.pos dp)
    by (subst r; rewrite shr_iter_m; [reflexivity | cbn [shr_m]; lia]).
  assert (Hqb : 6755399441055744 <= shr_m r < 9007199254740992).
  { rewrite Hq, HM. split.
    - apply Z.div_le_lower_bound; lia.
    - apply Z.div_lt_upper_bound; nia. }
  pose proof (round_nearest_even_bounds (shr_m r) (loc_of_shr_record r)) as Hr.
  remember (round_nearest_even (shr_m r) (loc_of_shr_record r)) as mr eqn:Hmr.
  replace (e + Z.pos dp) with (-53) by lia.
  destruct (Z.eq_dec mr 9007199254740992) as [-> | Hne].
  - right. split; reflexivity.
  - destruct mr as [| m' | m']; try lia.
    assert (Hd' : Z.pos (digits2_pos m') = 53)
      by (apply digits2_pos_unique;
          change (2 ^ (53 - 1)) with 4503599627370496;
          change (2 ^ 53) with 9007199254740992; lia).
    rewrite shr_fexp_canonical by (try exact Hd'; lia).
    cbn [shr_m]. change (-53 <=? Float.emax - Float.prec)%Z with true.
    cbn iota. left. split; [reflexivity | lia].
Qed.

Lemma leb_same_exponent (m1 m2 : positive) (e : Z) :
  Z.pos m1 <= Z.pos m2 ->
  Float.leb (S754_finite false m1 e) (S754_finite false m2 e) = true.
Proof.
  intros H. unfold Float.leb, SFleb, SFcompare. rewrite Z.compare_refl.
  change (Pos.compare_cont Eq m1 m2) with (Pos.compare m1 m2).
  destruct (Pos.compare_spec m1 m2); try reflexivity. lia.
Qed.

Lemma leb_lower_exponent (m1 m2 : positive) (e1 e2 : Z) :
  e1 < e2 ->
  Float.leb (S754_finite false m1 e1) (S754_finite false m2 e2) = true.
Proof.
  intros H. unfold Float.leb, SFleb, SFcompare.
  rewrite (proj2 (Z.compare_lt_iff e1 e2) H). reflexivity.
Qed.

Lemma SFcompare_rank (a b : spec_float) :
  Float.is_nan a = false -> Float.is_nan b = false ->
  SFcompare a b = Some (lex_compare (rank a) (rank b)).
Proof.
  destruct a as [sa | sa | | sa ma ea], b as [sb | sb | | sb mb eb];
    cbn [Float.is_nan]; intros Ha Hb; try discriminate;
    try (destruct sa); try (destruct sb); try reflexivity;
    cbn [SFcompare rank lex_compare].
  change (-1 ?= -1) with Eq. cbv iota.
  rewrite Z.compare_opp, (Z.compare_antisym ea eb).
  destruct (ea ?= eb); reflexivity.
Qed.

Lemma lex_compare_refl (a : Z * Z * Z) : lex_compare a a = Eq.
Proof.
  destruct a as [[a1 a2] a3]. cbn [lex_compare]. rewrite !Z.compare_refl.
  reflexivity.
Qed.

(** [lex_compare] against the order it decides. *)
Lemma lex_compare_spec (a b : Z * Z * Z) :
  let '(a1, a2, a3) := a in
  let '(b1, b2, b3) := b in
  match lex_compare a b with
  | Lt => a1 < b1 \/ (a1 = b1 /\ (a2 < b2 \/ (a2 = b2 /\ a3 < b3)))
  | Eq => a1 = b1 /\ a2 = b2 /\ a3 = b3
  | Gt => b1 < a1 \/ (a1 = b1 /\ (b2 < a2 \/ (a2 = b2 /\ b3 < a3)))
  end.
Proof.
  destruct a as [[a1 a2] a3], b as [[b1 b2] b3]. cbn [lex_compare].
  destruct (Z.compare_spec a1 b1); [| lia | lia].
  destruct (Z.compare_spec a2 b2); [| lia | lia].
  destruct (Z.compare_spec a3 b3); lia.
Qed.

Lemma leb_refl (a : spec_float) :
  Float.is_nan a = false -> Float.leb a a = true.
Proof.
  intros Ha. unfold Float.leb, SFleb.
  rewrite (SFcompare_rank a a Ha Ha), lex_compare_refl. reflexivity.
Qed.

Lemma ltb_leb (a b : spec_float) :
  Float.ltb a b = true -> Float.leb a b = true.
Proof.
  unfold Float.ltb, Float.leb, SFltb, SFleb.
  destruct (SFcompare a b) as [[ | | ] |]; intros H; congruence.
Qed.

(** The order is total away from NaN: [not (b > a)] is [b <= a]. *)
Lemma gtb_false_leb (a b : spec_float) :
  Float.is_nan a = false -> Float.is_nan b = false ->
  Float.gtb b a = false -> Float.leb b a = true.
Proof.
  intros Ha Hb. unfold Float.gtb, Float.leb, SFltb, SFleb.
  rewrite (SFcompare_rank a b Ha Hb), (SFcompare_rank b a Hb Ha).
  pose proof (lex_compare_spec (rank a) (rank b)) as Hab.
  pose proof (lex_compare_spec (rank b) (rank a)) as Hba.
  destruct (rank a) as [[a1 a2] a3], (rank b) as [[b1 b2] b3].
  destruct (lex_compare (a1, a2, a3) (b1, b2, b3)),
           (lex_compare (b1, b2, b3) (a1, a2, a3));
    intros H; try reflexivity; try discriminate; lia.
Qed.

Lemma leb_ltb_trans (a b c : spec_float) :
  Float.is_nan a = false -> Float.is_nan b = false ->
  Float.is_nan c = false ->
  Float.leb a b = true -> Float.ltb b c = true -> Float.ltb a c = true.
Proof.
  intros Ha Hb Hc. unfold Float.ltb, Float.leb, SFltb, SFleb.
  rewrite (SFcompare_rank a b Ha Hb), (SFcompare_rank b c Hb Hc),
    (SFcompare_rank a c Ha Hc).
  pose proof (lex_compare_spec (rank a) (rank b)) as Hab.
  pose proof (lex_compare_spec (rank b) (rank c)) as Hbc.
  pose proof (lex_compare_spec (rank a) (rank c)) as Hac.
  destruct (rank a) as [[a1 a2] a3], (rank b) as [[b1 b2] b3],
           (rank c) as [[c1 c2] c3].
  destruct (lex_compare (a1, a2, a3) (b1, b2, b3)),
           (lex_compare (b1, b2, b3) (c1, c2, c3)),
           (lex_compare (a1, a2, a3) (c1, c2, c3));
    intros H1 H2; try reflexivity; try discriminate; lia.
Qed.

Lemma leb_not_nan (a b : spec_float) :
  Float.leb a b = true -> Float.is_nan a = false /\ Float.is_nan b = false.
Proof.
  unfold Float.leb, SFleb.
  destruct a, b; cbn [SFcompare Float.is_nan]; intros H;
    try discriminate; split; reflexivity.
Qed.

End FloatFacts.
(** * The simulated batches *)

Section Simulation.

Lemma random_random_unit (g : rng) : unit_float (fst (random_random g)).
Proof.
  unfold random_random, bind, draw, ret. cbn [fst].
  apply of_dyadic_unit. apply Z.mod_pos_bound. reflexivity.
Qed.

Lemma random_randint_range (a b : Z) (g : rng) :
  a <= b -> a <= fst (random_randint a b g) <= b.
Proof.
  intros Hab. unfold random_randint, bind, draw, ret. cbn [fst].
  pose proof (Z.mod_pos_bound (Z.of_N (tape g (cursor g))) (b - a + 1)).
  lia.
Qed.

(** [0.75 + r * 0.25] lies in [[0.75, 1.0]] for every [r] that
    [random.random()] can return. *)
Lemma confidence_range (r : spec_float) :
  unit_float r ->
  let c := Float.add Float.lit_0_75 (Float.mul r Float.lit_0_25) in
  Float.leb Float.lit_0_75 c = true /\ Float.leb c Float.lit_1_0 = true.
Proof.
  intros [-> | (m & e & -> & Hd & He)]; cbn zeta.
  - split; reflexivity.
  - rewrite (mul_quarter m e Hd He).
    pose proof (add_three_quarters m (e - 2) Hd ltac:(lia)) as H.
    destruct (Float.add Float.lit_0_75 (S754_finite false m (e - 2)))
      as [| | | [|] m' e']; try contradiction.
    destruct H as [[-> Hm] | [-> ->]]; [| split; reflexivity].
    split; [apply leb_same_exponent; lia | apply leb_lower_exponent; lia].
Qed.

Lemma new_detection_well_formed (g : rng) :
  well_formed (fst (DetectionEngine.new_detection g)).
Proof.
  unfold DetectionEngine.new_detection, bind, ret.
  pose proof (random_random_unit g) as Hr.
  destruct (random_random g) as [r g1]. cbn [fst] in Hr.
  pose proof (random_randint_range 100 1400 g1 ltac:(lia)) as Hx.
  destruct (random_randint 100 1400 g1) as [bx g2]. cbn [fst] in Hx.
  pose proof (random_randint_range 100 800 g2 ltac:(lia)) as Hy.
  destruct (random_randint 100 800 g2) as [by_ g3]. cbn [fst] in Hy.
  pose proof (random_randint_range 0 100 g3 ltac:(lia)) as Hw.
  destruct (random_randint 0 100 g3) as [dw g4]. cbn [fst] in Hw.
  pose proof (random_randint_range 0 100 g4 ltac:(lia)) as Hh.
  destruct (random_randint 0 100 g4) as [dh g5]. cbn [fst] in Hh.
  destruct (confidence_range r Hr) as [Hlo Hhi].
  unfold well_formed. cbn [fst label confidence bounding_box center x y width height].
  repeat split; try assumption; lia.
Qed.

Lemma append_detections_spec (n : nat) :
  forall (acc : list detection) (g : rng),
    Forall well_formed acc ->
    Forall well_formed (fst (DetectionEngine.append_detections n acc g)) /\
    length (fst (DetectionEngine.append_detections n acc g))
    = (length acc + n)%nat.
Proof.
  induction n as [| n IH]; intros acc g Hacc; cbn [DetectionEngine.append_detections].
  - unfold ret. cbn [fst]. split; [exact Hacc | lia].
  - unfold bind. pose proof (new_detection_well_formed g) as Hd.
    destruct (DetectionEngine.new_detection g) as [d g1]. cbn [fst] in Hd.
    cbv beta iota.
    destruct (IH (acc ++ [d]) g1) as [Hwf Hlen].
    + apply Forall_app. split; [exact Hacc | constructor; [exact Hd | constructor]].
    + split; [exact Hwf |]. rewrite Hlen, length_app. cbn [length]. lia.
Qed.

(** A batch is empty, or made of one to three records generated in a
    row. *)
Lemma simulate_detection_cases (g : rng) :
  fst (DetectionEngine._simulate_detection g) = [] \/
  exists (n : nat) (g' : rng),
    (1 <= n <= 3)%nat /\
    fst (DetectionEngine._simulate_detection g)
    = fst (DetectionEngine.append_detections n [] g').
Proof.
  unfold DetectionEngine._simulate_detection, bind.
  destruct (random_random g) as [p g1].
  destruct (Float.ltb p Float.lit_0_3); [| left; reflexivity].
  pose proof (random_randint_range 1 3 g1 ltac:(lia)) as Hn.
  destruct (random_randint 1 3 g1) as [num g2]. cbn [fst] in Hn.
  right. exists (Z.to_nat num), g2. split; [lia | reflexivity].
Qed.

(** C2: every record of every batch that [_simulate_detection] produces
    has the label "person", a confidence in [[0.75, 1.0]], a box with
    [x] in [[100, 1400]], [y] in [[100, 800]], [width] in [[100, 200]]
    and [height] in [[150, 250]], and the center
    [(x + width // 2, y + height // 2)]; and a batch is empty or has
    between one and three records. *)
Theorem simulate_detection_well_formed (g : rng) :
  let batch := fst (DetectionEngine._simulate_detection g) in
  Forall well_formed batch /\
  (batch = [] \/ (1 <= length batch <= 3)%nat).
Proof.
  cbn zeta.
  destruct (simulate_detection_cases g) as [-> | (n & g' & Hn & ->)].
  - split; [constructor | left; reflexivity].
  - destruct (append_detections_spec n [] g') as [Hwf Hlen]; [constructor |].
    split; [exact Hwf |]. right. rewrite Hlen. cbn [length]. lia.
Qed.

(** The bounds are met: a batch of three records, and a draw that
    rounds the confidence up to [1.0]. *)
Example simulate_detection_three :
  length (fst (DetectionEngine._simulate_detection sample_rng)) = 3%nat.
Proof. reflexivity. Qed.

Example simulate_detection_confidence_one :
  map confidence (fst (DetectionEngine._simulate_detection edge_rng))
  = [Float.lit_1_0].
Proof. vm_compute. reflexivity. Qed.

End Simulation.

(** * Selection of the best target *)

Section BestTarget.

Lemma max_from_in (rest : list detection) :
  forall cur, max_from cur rest = cur \/ max_from cur rest ∈ rest.
Proof.
  induction rest as [| d rest IH]; intros cur; cbn [max_from].
  - left. reflexivity.
  - destruct (IH (if Float.gtb (confidence d) (confidence cur) then d else cur))
      as [-> | Hin].
    + destruct (Float.gtb (confidence d) (confidence cur));
        [right; left | left; reflexivity].
    + right. right. exact Hin.
Qed.

Lemma max_from_first_maximum (rest : list detection) :
  forall (pre : list detection) (cur : detection) (i : nat),
    no_nan (pre ++ rest) ->
    pre !! i = Some cur ->
    (forall d, d ∈ pre -> Float.leb (confidence d) (confidence cur) = true) ->
    (forall (j : nat) d, (j < i)%nat -> pre !! j = Some d ->
               Float.ltb (confidence d) (confidence cur) = true) ->
    first_maximum (pre ++ rest) (max_from cur rest).
Proof.
  induction rest as [| d rest IH]; intros pre cur i Hnan Hi Hle Hlt;
    cbn [max_from].
  - rewrite app_nil_r. exists i. auto.
  - replace (pre ++ d :: rest) with ((pre ++ [d]) ++ rest) in *
      by (rewrite <- app_assoc; reflexivity).
    assert (Hnan' : no_nan (pre ++ [d]))
      by (apply Forall_app in Hnan; tauto).
    assert (Hd : Float.is_nan (confidence d) = false).
    { apply Forall_app in Hnan'. destruct Hnan' as [_ Hd].
      inversion Hd; assumption. }
    assert (Hpre : forall d0, d0 ∈ pre ->
                              Float.is_nan (confidence d0) = false).
    { apply Forall_app in Hnan'. destruct Hnan' as [Hp _].
      intros d0 Hd0. rewrite Forall_forall in Hp. exact (Hp d0 Hd0). }
    assert (Hcur : Float.is_nan (confidence cur) = false)
      by (apply Hpre; apply list_elem_of_lookup; eauto).
    destruct (Float.gtb (confidence d) (confidence cur)) eqn:Hgt.
    + apply (IH (pre ++ [d]) d (length pre) Hnan).
      * rewrite lookup_app_r by lia. rewrite Nat.sub_diag. reflexivity.
      * intros d0 Hd0. apply elem_of_app in Hd0. destruct Hd0 as [Hd0 | Hd0].
        -- apply ltb_leb.
           apply (leb_ltb_trans _ (confidence cur)); auto.
        -- apply list_elem_of_singleton in Hd0. subst d0. apply leb_refl, Hd.
      * intros j d0 Hj Hj0. rewrite lookup_app_l in Hj0 by exact Hj.
        apply (leb_ltb_trans _ (confidence cur)); auto.
        -- apply Hpre. apply list_elem_of_lookup; eauto.
        -- apply Hle. apply list_elem_of_lookup; eauto.
    + apply (IH (pre ++ [d]) cur i Hnan).
      * rewrite lookup_app_l; [exact Hi |]. apply lookup_lt_Some in Hi. exact Hi.
      * intros d0 Hd0. apply elem_of_app in Hd0. destruct Hd0 as [Hd0 | Hd0].
        -- apply Hle, Hd0.
        -- apply list_elem_of_singleton in Hd0. subst d0.
           apply gtb_false_leb; assumption.
      * intros j d0 Hj Hj0. apply (Hlt j d0 Hj).
        apply lookup_lt_Some in Hi.
        rewrite lookup_app_l in Hj0 by lia. exact Hj0.
Qed.

Lemma well_formed_no_nan (batch : list detection) :
  Forall well_formed batch -> no_nan batch.
Proof.
  intros H. eapply Forall_impl; [exact H |].
  intros d (_ & Hlo & _). apply leb_not_nan in Hlo. tauto.
Qed.

(** C3: on a non-empty batch of records whose confidence is a number
    the selected best target is a record of the batch whose confidence
    is the greatest of the batch, and among the records that share the
    greatest confidence it is the first; and the confidence of every
    record of every generated batch is a number. *)
Theorem best_target_first_maximum :
  (forall batch : list detection,
      batch <> [] -> no_nan batch ->
      exists best, DetectionEngine.select_best_target batch = Some best /\
                   first_maximum batch best) /\
  (forall g : rng, no_nan (fst (DetectionEngine._simulate_detection g))).
Proof.
  split.
  - intros batch Hne Hnan. destruct batch as [| d rest]; [congruence |].
    exists (max_from d rest). split; [reflexivity |].
    apply (max_from_first_maximum rest [d] d 0 Hnan).
    + reflexivity.
    + intros d0 Hd0. apply list_elem_of_singleton in Hd0. subst d0.
      apply leb_refl. inversion Hnan; assumption.
    + intros j d0 Hj. lia.
  - intros g.
    destruct (simulate_detection_cases g) as [-> | (n & g' & _ & ->)];
      [constructor |].
    apply well_formed_no_nan, append_detections_spec. constructor.
Qed.

(** On the sample batch the second record is selected, not the third,
    which has the same confidence. *)
Example select_best_target_tie :
  DetectionEngine.select_best_target sample_batch
  = Some (sample_detection Float.lit_1_0 200).
Proof. reflexivity. Qed.

Lemma best_target_first_maximum_witness :
  exists best, DetectionEngine.select_best_target sample_batch = Some best /\
               first_maximum sample_batch best.
Proof.
  apply (proj1 best_target_first_maximum sample_batch).
  - discriminate.
  - repeat constructor.
Defined.

End BestTarget.

(** * The loop: one iteration, then whole runs *)

Section Loop.

Lemma run_invariant (P : world -> Prop) :
  (forall a w, P w -> P (step a w)) ->
  forall actions w, P w -> P (run actions w).
Proof.
  intros Hstep actions. induction actions as [| a actions IH]; intros w Hw.
  - exact Hw.
  - cbn [run fold_left]. apply IH, Hstep, Hw.
Qed.

Lemma select_best_target_coherent (batch : list detection) :
  (DetectionEngine.select_best_target batch = None <-> batch = []) /\
  (forall b, DetectionEngine.select_best_target batch = Some b -> b ∈ batch).
Proof.
  destruct batch as [| d rest]; cbn [DetectionEngine.select_best_target].
  - split; [tauto | discriminate].
  - split; [split; discriminate |].
    intros b [= <-]. destruct (max_from_in rest d) as [-> | Hin].
    + left.
    + right. exact Hin.
Qed.

(** What an iteration does to the metrics, whether it is cut short by
    an exception or not. *)
Lemma iteration_metrics (self : DetectionEngine.t) (obs : clock)
    (m : metrics) (g : rng) :
  let batch := fst (DetectionEngine._simulate_detection g) in
  let m' := fst (fst (DetectionEngine.iteration self obs m g)) in
  total_detections m' = total_detections m + Z.of_nat (length batch) /\
  successful_targets m'
  = successful_targets m
    + match DetectionEngine.select_best_target batch with
      | Some best => if exceeds_threshold self best then 1 else 0
      | None => 0
      end /\
  last_detection_time m' = Some (now_metrics obs) /\
  average_processing_time m'
  = PFloat (Float.mul (Float.sub (end_time obs) (start_time obs))
                      Float.lit_1000_0).
Proof.
  cbn zeta. unfold DetectionEngine.iteration, exceeds_threshold.
  destruct (DetectionEngine._simulate_detection g) as [batch g'].
  cbn [fst].
  destruct (DetectionEngine.select_best_target batch) as [best |];
    [| cbn; repeat split; lia].
  destruct (DetectionEngine.config self !! "ConfidenceThreshold")
    as [threshold |]; [| cbn; repeat split; lia].
  destruct (float_gt (confidence best) threshold) as [[|] | e];
    cbn; repeat split; lia.
Qed.

Lemma iteration_coherent (self : DetectionEngine.t) (obs : clock)
    (m : metrics) (g : rng) (d : detection_data) :
  snd (DetectionEngine.iteration self obs m g) = Ok d -> coherent d.
Proof.
  unfold DetectionEngine.iteration.
  destruct (DetectionEngine._simulate_detection g) as [batch g'].
  pose proof (select_best_target_coherent batch) as [Hnone Hsome].
  destruct (DetectionEngine.select_best_target batch) as [best |].
  - destruct (DetectionEngine.config self !! "ConfidenceThreshold")
      as [threshold |]; [| discriminate].
    destruct (float_gt (confidence best) threshold) as [hit | e];
      [| discriminate].
    cbn [snd]. intros [= <-]. unfold coherent.
    cbn [best_target detections]. split; [exact Hnone | exact Hsome].
  - cbn [snd]. intros [= <-]. unfold coherent.
    cbn [best_target detections]. split; [exact Hnone | exact Hsome].
Qed.

(** Creating the engine on demand touches the engine only. *)
Lemma ensure_engine_Ok (w w1 : world) (self : DetectionEngine.t) :
  ensure_engine w = Ok (self, w1) ->
  w1 = set_engine w self /\
  (detection_engine w = Some self \/
   (detection_engine w = None /\
    DetectionEngine.__init__ (environ w) = Ok self)).
Proof.
  unfold ensure_engine. destruct w as [env eng m bp th g log]. cbn.
  destruct eng as [e |].
  - intros [= <- <-]. split; [reflexivity | left; reflexivity].
  - destruct (DetectionEngine.__init__ env) as [e |]; cbn; [| discriminate].
    intros [= <- <-]. split; [reflexivity | right; split; reflexivity].
Qed.

Ltac crush_handler :=
  repeat match goal with
         | |- context [ensure_engine ?w] =>
             let H := fresh "Hensure" in
             destruct (ensure_engine w) as [[? ?] | ?] eqn:H;
             [apply ensure_engine_Ok in H; destruct H as [-> _] |]
         | |- context [match ?x with _ => _ end] => destruct x
         end.

Lemma step_metrics (a : action) (w : world) :
  detection_metrics (step a w) = detection_metrics w \/
  exists self obs,
    detection_metrics (step a w)
    = fst (fst (DetectionEngine.iteration self obs (detection_metrics w)
                                          (random w))).
Proof.
  destruct a; cbn [step];
    unfold index, start_detection, stop_detection, configuration, processes,
      status, health, thread_round, DetectionEngine.start_detection,
      DetectionEngine.stop_detection, DetectionEngine._detection_loop.
  all: try (left; crush_handler; reflexivity).
  case_bool_decide; [| left; reflexivity].
  destruct (detection_engine w) as [self |]; [| left; reflexivity].
  destruct (DetectionEngine.is_running self); [| left; reflexivity].
  right. exists self, obs.
  destruct (DetectionEngine.iteration self obs (detection_metrics w) (random w))
    as [[m' g'] out].
  reflexivity.
Qed.

Lemma step_emitted (a : action) (w : world) :
  emitted (step a w) = emitted w \/
  (exists b, emitted (step a w) = bridge_update b :: emitted w) \/
  (exists self obs d,
      snd (DetectionEngine.iteration self obs (detection_metrics w) (random w))
      = Ok d /\
      emitted (step a w) = detection_update d :: emitted w).
Proof.
  destruct a; cbn [step];
    unfold index, start_detection, stop_detection, configuration, processes,
      status, health, thread_round, DetectionEngine.start_detection,
      DetectionEngine.stop_detection, DetectionEngine._detection_loop.
  1-4, 6-7: left; crush_handler; reflexivity.
  - destruct (method req); [left; reflexivity |].
    destruct (json req) as [data | code text]; [| left; reflexivity].
    right. left. eexists. reflexivity.
  - case_bool_decide; [| left; reflexivity].
    destruct (detection_engine w) as [self |]; [| left; reflexivity].
    destruct (DetectionEngine.is_running self); [| left; reflexivity].
    destruct (DetectionEngine.iteration self obs (detection_metrics w) (random w))
      as [[m' g'] out] eqn:Hit.
    destruct out as [d | e]; [| left; reflexivity].
    right. right. exists self, obs, d. rewrite Hit. split; reflexivity.
Qed.

Lemma iteration_monotone (self : DetectionEngine.t) (obs : clock)
    (m : metrics) (g : rng) :
  let m' := fst (fst (DetectionEngine.iteration self obs m g)) in
  total_detections m <= total_detections m' /\
  successful_targets m <= successful_targets m'.
Proof.
  cbn zeta.
  destruct (iteration_metrics self obs m g) as (Ht & Hs & _).
  rewrite Ht, Hs. split; [lia |].
  destruct (DetectionEngine.select_best_target _) as [best |]; [| lia].
  destruct (exceeds_threshold self best); lia.
Qed.

(** C6: an iteration of the loop adds the number of records of its
    batch to [total_detections], adds one to [successful_targets]
    exactly when the best record of the batch has a confidence that
    exceeds the [ConfidenceThreshold] of the configuration at that
    time, and records the timestamp and the processing time; against a
    float threshold, exceeding is the strict order of floats; and over
    any run of the process, made of atomic steps, neither counter ever
    decreases. *)
Theorem metrics_update_monotone :
  (forall (self : DetectionEngine.t) (obs : clock) (m : metrics) (g : rng),
      let batch := fst (DetectionEngine._simulate_detection g) in
      let m' := fst (fst (DetectionEngine.iteration self obs m g)) in
      total_detections m' = total_detections m + Z.of_nat (length batch) /\
      successful_targets m'
      = successful_targets m
        + match DetectionEngine.select_best_target batch with
          | Some best => if exceeds_threshold self best then 1 else 0
          | None => 0
          end /\
      last_detection_time m' = Some (now_metrics obs) /\
      average_processing_time m'
      = PFloat (Float.mul (Float.sub (end_time obs) (start_time obs))
                          Float.lit_1000_0)) /\
  (forall (cfg : gmap string pyval) (running : bool) (th : option nat)
          (threshold : spec_float) (best : detection),
      exceeds_threshold
        (DetectionEngine.mk (<["ConfidenceThreshold" := PFloat threshold]> cfg)
                            running th)
        best
      = Float.ltb threshold (confidence best)) /\
  (forall (actions : list action) (w : world),
      total_detections (detection_metrics w)
      <= total_detections (detection_metrics (run actions w)) /\
      successful_targets (detection_metrics w)
      <= successful_targets (detection_metrics (run actions w))).
Proof.
  split; [exact iteration_metrics | split].
  - intros cfg running th threshold best. unfold exceeds_threshold.
    cbn [DetectionEngine.config]. rewrite lookup_insert_eq. reflexivity.
  - intros actions w.
    apply (run_invariant
             (fun w' =>
                total_detections (detection_metrics w)
                <= total_detections (detection_metrics w') /\
                successful_targets (detection_metrics w)
                <= successful_targets (detection_metrics w')));
      [| lia].
    intros a w' [Ht Hs].
    destruct (step_metrics a w') as [-> | (self & obs & ->)]; [tauto |].
    pose proof (iteration_monotone self obs (detection_metrics w') (random w')).
    cbn zeta in *. lia.
Qed.

(** A confidence of [0.75] exceeds neither the integer [1] nor [True],
    exceeds the integer [0], and cannot be compared with a string. *)
Example float_gt_values :
  map (float_gt Float.lit_0_75) [PInt 1; PBool true; PInt 0; PFloat Float.lit_0_5]
  = map Ok [false; false; true; true] /\
  float_gt Float.lit_0_75 (PStr "high")
  = Raise (TypeError
             "'>' not supported between instances of 'float' and 'str'").
Proof. split; reflexivity. Qed.

(** C8: every [detection_update] payload published in a run of the
    process has a [best_target] that is [None] exactly when its list of
    detections is empty, and that is otherwise one of the records of
    that list. *)
Theorem published_batches_coherent (env : gmap string string) (g : rng)
    (actions : list action) (d : detection_data) :
  detection_update d ∈ emitted (run actions (boot env g)) -> coherent d.
Proof.
  revert d.
  apply (run_invariant
           (fun w => forall d, detection_update d ∈ emitted w -> coherent d)).
  - intros a w Hw d.
    destruct (step_emitted a w)
      as [-> | [(b & ->) | (self & obs & d' & Hit & ->)]].
    + apply Hw.
    + intros Hin. apply elem_of_cons in Hin.
      destruct Hin as [Heq | Hin]; [discriminate | exact (Hw d Hin)].
    + intros Hin. apply elem_of_cons in Hin.
      destruct Hin as [[= ->] | Hin]; [| exact (Hw d Hin)].
      exact (iteration_coherent _ _ _ _ _ Hit).
  - cbn [boot emitted]. intros d Hin. apply elem_of_nil in Hin. contradiction.
Qed.

Lemma published_batches_coherent_witness :
  exists d,
    detection_update d
    ∈ emitted (run [call_start_detection; loop_round 0 sample_clock]
                   (boot ∅ sample_rng)) /\
    coherent d.
Proof.
  eexists. split.
  - vm_compute. apply list_elem_of_here.
  - apply (published_batches_coherent
             ∅ sample_rng [call_start_detection; loop_round 0 sample_clock]).
    vm_compute. apply list_elem_of_here.
Defined.

End Loop.

(** * The loop controller *)

Section Controller.

Lemma filter_ne_singleton (tid : nat) :
  filter (fun i : nat => i <> tid) [tid] = [].
Proof.
  rewrite filter_cons. destruct (decide (tid <> tid)) as [Hne | _];
    [congruence | reflexivity].
Qed.

Lemma step_single_loop (a : action) (w : world) :
  a <> call_stop_detection false -> single_loop w -> single_loop (step a w).
Proof.
  intros Ha. destruct w as [env eng m bp th g log].
  unfold single_loop. cbn [detection_engine loop_threads].
  destruct a; cbn [step]; try (intros H; exact H).
  - (* start *)
    unfold start_detection, ensure_engine. cbn [detection_engine environ].
    destruct eng as [self |].
    + cbn. unfold DetectionEngine.start_detection.
      destruct (DetectionEngine.is_running self) eqn:Hrun; cbn; rewrite ?Hrun.
      * intros H; exact H.
      * intros ->. exists (DetectionEngine.created th). split; reflexivity.
    + destruct (DetectionEngine.__init__ env) as [self |] eqn:Hinit; cbn.
      * unfold DetectionEngine.__init__ in Hinit.
        destruct (DetectionEngine.load_configuration env); cbn in Hinit;
          [| discriminate].
        injection Hinit as <-. cbn.
        intros ->. exists (DetectionEngine.created th). split; reflexivity.
      * intros H; exact H.
  - (* stop *)
    destruct joined; [| congruence].
    unfold stop_detection. cbn [detection_engine].
    destruct eng as [self |]; [| intros H; exact H].
    unfold DetectionEngine.stop_detection.
    destruct (DetectionEngine.is_running self) eqn:Hrun; cbn; rewrite ?Hrun.
    * intros (tid & -> & ->). apply filter_ne_singleton.
    * intros H; exact H.
  - (* configuration *)
    unfold configuration, ensure_engine. cbn [detection_engine environ].
    destruct eng as [self |].
    + cbn. destruct (method req); [intros H; exact H |].
      destruct (json req) as [v | code text]; [| intros H; exact H].
      unfold DetectionEngine.save_configuration.
      destruct v; cbn; intros H; exact H.
    + destruct (DetectionEngine.__init__ env) as [self |] eqn:Hinit; cbn;
        [| intros H; exact H].
      unfold DetectionEngine.__init__ in Hinit.
      destruct (DetectionEngine.load_configuration env); cbn in Hinit;
        [| discriminate].
      injection Hinit as <-.
      destruct (method req); [intros H; exact H |].
      destruct (json req) as [v | code text]; [| intros H; exact H].
      unfold DetectionEngine.save_configuration.
      destruct v; cbn; intros H; exact H.
  - (* processes *)
    unfold processes. destruct (method req); [intros H; exact H |].
    destruct (json req); intros H; exact H.
  - (* a round of the loop *)
    unfold thread_round.
    cbn [loop_threads detection_engine detection_metrics random].
    case_bool_decide as Hin; [| intros H; exact H].
    destruct eng as [self |]; [| intros H; exact H].
    unfold DetectionEngine._detection_loop.
    destruct (DetectionEngine.is_running self) eqn:Hrun.
    + destruct (DetectionEngine.iteration self obs m g) as [[m' g'] out].
      cbn. rewrite ?Hrun. intros H; exact H.
    + cbn. rewrite ?Hrun. intros H. rewrite H in Hin.
      apply elem_of_nil in Hin. contradiction.
Qed.

Lemma run_single_loop (actions : list action) :
  forall w, joins_in_time actions -> single_loop w ->
            single_loop (run actions w).
Proof.
  induction actions as [| a actions IH]; intros w Hj Hw; [exact Hw |].
  inversion Hj as [| ? ? Ha Hrest]; subst.
  cbn [run fold_left]. apply IH; [exact Hrest |].
  apply step_single_loop; assumption.
Qed.

Lemma single_loop_at_most_one (w : world) :
  single_loop w -> (length (DetectionEngine.alive (loop_threads w)) <= 1)%nat.
Proof.
  unfold single_loop. destruct (detection_engine w) as [self |].
  - destruct (DetectionEngine.is_running self).
    + intros (tid & _ & ->). cbn. lia.
    + intros ->. cbn. lia.
  - intros ->. cbn. lia.
Qed.

(** What the controller does keep.  It has two states, the values of
    [is_running]: a start on a stopped engine and a stop on a running
    one succeed and switch the state; [start_detection] on a running
    engine and [stop_detection] on a stopped one answer with a failure
    and leave the engine and the threads as they were, at the level of
    the methods and at the level of the requests; and at most one loop
    thread is alive at any point of a run in which the requests are
    served one at a time and every stop finds its thread gone within
    the timeout of its [join]. *)
Theorem controller_misuse_and_single_loop :
  (forall self th,
      DetectionEngine.is_running self = true ->
      DetectionEngine.start_detection self th
      = (mk_reply false "Detection already running", self, th)) /\
  (forall joined self th,
      DetectionEngine.is_running self = false ->
      DetectionEngine.stop_detection joined self th
      = (mk_reply false "Detection not running", self, th)) /\
  (forall w self,
      detection_engine w = Some self ->
      DetectionEngine.is_running self = true ->
      start_detection w
      = (jsonify (message_body false "Detection already running"), w)) /\
  (forall joined w self,
      detection_engine w = Some self ->
      DetectionEngine.is_running self = false ->
      stop_detection joined w
      = (jsonify (message_body false "Detection not running"), w)) /\
  (forall self th,
      DetectionEngine.is_running self = false ->
      let '(r, self', th') := DetectionEngine.start_detection self th in
      success r = true /\ DetectionEngine.is_running self' = true /\
      DetectionEngine.alive th'
      = DetectionEngine.alive th ++ [DetectionEngine.created th]) /\
  (forall joined self th,
      DetectionEngine.is_running self = true ->
      let '(r, self', _) := DetectionEngine.stop_detection joined self th in
      success r = true /\ DetectionEngine.is_running self' = false) /\
  (forall env g actions,
      joins_in_time actions ->
      (length (DetectionEngine.alive
                 (loop_threads (run actions (boot env g)))) <= 1)%nat).
Proof.
  split; [| split; [| split; [| split; [| split; [| split]]]]].
  - intros self th Hrun. unfold DetectionEngine.start_detection.
    rewrite Hrun. reflexivity.
  - intros joined self th Hrun. unfold DetectionEngine.stop_detection.
    rewrite Hrun. reflexivity.
  - intros w self Heng Hrun. destruct w as [env eng m bp th g log].
    cbn in Heng. subst eng.
    unfold start_detection, ensure_engine, DetectionEngine.start_detection.
    cbn. rewrite Hrun. reflexivity.
  - intros joined w self Heng Hrun. destruct w as [env eng m bp th g log].
    cbn in Heng. subst eng.
    unfold stop_detection, DetectionEngine.stop_detection.
    cbn. rewrite Hrun. reflexivity.
  - intros self th Hrun. unfold DetectionEngine.start_detection.
    rewrite Hrun. repeat split.
  - intros joined self th Hrun. unfold DetectionEngine.stop_detection.
    rewrite Hrun. repeat split.
  - intros env g actions Hj. apply single_loop_at_most_one.
    apply run_single_loop; [exact Hj | reflexivity].
Qed.

Lemma controller_misuse_and_single_loop_witness :
  DetectionEngine.start_detection
    (DetectionEngine.mk default_configuration true (Some 0%nat))
    (DetectionEngine.mk_threads [0%nat] 1)
  = (mk_reply false "Detection already running",
     DetectionEngine.mk default_configuration true (Some 0%nat),
     DetectionEngine.mk_threads [0%nat] 1) /\
  DetectionEngine.stop_detection true sample_engine
                                 (DetectionEngine.mk_threads [] 0)
  = (mk_reply false "Detection not running", sample_engine,
     DetectionEngine.mk_threads [] 0) /\
  (length (DetectionEngine.alive
             (loop_threads
                (run [call_start_detection; loop_round 0 sample_clock;
                      call_stop_detection true; call_start_detection]
                     (boot ∅ sample_rng)))) <= 1)%nat.
Proof.
  split; [| split].
  - apply (proj1 controller_misuse_and_single_loop). reflexivity.
  - apply (proj1 (proj2 controller_misuse_and_single_loop)). reflexivity.
  - apply (proj2 (proj2 (proj2 (proj2 (proj2 (proj2
             controller_misuse_and_single_loop)))))).
    repeat constructor; discriminate.
Defined.

(** C1 fails on the code.  With a [DetectionInterval] of five seconds
    the thread of the loop sleeps five seconds after each round, so the
    [join] of a stop, which waits one second, times out: the stop
    answers a success and leaves the thread alive.  The start that
    follows finds the flag cleared, sets it again and creates a second
    thread.  From then on both threads find the flag set, and each goes
    through the body of the loop and publishes. *)
Lemma second_loop_after_timed_out_join :
  let w := run [call_start_detection; loop_round 0 sample_clock;
                call_stop_detection false; call_start_detection]
               (boot slow_environ sample_rng) in
  let w' := run [loop_round 0 sample_clock; loop_round 1 sample_clock] w in
  DetectionEngine.alive (loop_threads w) = [0; 1]%nat /\
  ~ (length (DetectionEngine.alive (loop_threads w)) <= 1)%nat /\
  DetectionEngine.alive (loop_threads w') = [0; 1]%nat /\
  length (emitted w') = 3%nat.
Proof.
  vm_compute. repeat split; try reflexivity. intros H.
  apply Nat.nle_succ_0 with (n := O), le_S_n, H.
Qed.

(** The guard fails as well when two first requests to start overlap.
    Each handler finds [detection_engine] empty at line 504 before the
    other has assigned it, and constructs an engine of its own.  The
    first assigns its engine and starts it; the second then assigns its
    own, whose flag is cleared, over it and starts that one: both
    starts answer a success, and two threads are alive without any
    stop. *)
Lemma second_loop_after_overlapping_starts :
  exists e : DetectionEngine.t,
    DetectionEngine.__init__ ∅ = Ok e /\
    (let first := start_detection (set_engine (boot ∅ sample_rng) e) in
     let second := start_detection (set_engine (snd first) e) in
     fst first = jsonify (message_body true "Detection started successfully") /\
     fst second = jsonify (message_body true "Detection started successfully") /\
     DetectionEngine.alive (loop_threads (snd second)) = [0; 1]%nat).
Proof.
  exists sample_engine. split.
  - unfold DetectionEngine.__init__, DetectionEngine.load_configuration,
      DetectionEngine.float_env, DetectionEngine.int_env,
      DetectionEngine.flag_env, DetectionEngine.str_env.
    rewrite !lookup_empty. reflexivity.
  - repeat split.
Qed.

End Controller.

(** * The configuration store *)

Section ConfigurationStore.

Lemma save_configuration_lookup (self : DetectionEngine.t)
    (d : gmap string pyval) (k : string) :
  (d ∪ DetectionEngine.config self) !! k
  = match d !! k with
    | Some v => Some v
    | None => DetectionEngine.config self !! k
    end.
Proof.
  destruct (d !! k) as [v |] eqn:Hk.
  - apply lookup_union_Some_l, Hk.
  - apply lookup_union_r, Hk.
Qed.

(** C4: [save_configuration] merges key by key, for every current
    configuration and every dictionary, known keys or not: a key of the
    update takes the value of the update, every other key keeps its
    value, and the rest of the engine is untouched.  Hence, once a
    configuration exists or can be loaded, a POST of
    [{"ConfidenceThreshold": 0.8}] followed by a GET answers a
    configuration with [0.8] at that key and the former value at every
    other key. *)
Theorem save_configuration_merges :
  (forall (self : DetectionEngine.t) (d : gmap string pyval),
      exists self',
        DetectionEngine.save_configuration self (PDict d) = Ok self' /\
        (forall k v, d !! k = Some v ->
                     DetectionEngine.config self' !! k = Some v) /\
        (forall k, d !! k = None ->
                   DetectionEngine.config self' !! k
                   = DetectionEngine.config self !! k) /\
        DetectionEngine.is_running self' = DetectionEngine.is_running self /\
        DetectionEngine.detection_thread self'
        = DetectionEngine.detection_thread self) /\
  (forall (w w0 : world) (self : DetectionEngine.t) (unread : json_body),
      ensure_engine w = Ok (self, w0) ->
      let update := PDict {[ "ConfidenceThreshold" := PFloat Float.lit_0_8 ]} in
      let posted := configuration (post update) w in
      let answer := fst (configuration (mk_request GET unread) (snd posted)) in
      fst posted
      = jsonify (message_body true "Configuration saved successfully") /\
      exists c,
        answer = jsonify (configuration_body c) /\
        c !! "ConfidenceThreshold" = Some (PFloat Float.lit_0_8) /\
        (forall k, k <> "ConfidenceThreshold" ->
                   c !! k = DetectionEngine.config self !! k)).
Proof.
  split.
  - intros self d. eexists. split; [reflexivity |].
    cbn [DetectionEngine.config DetectionEngine.is_running
         DetectionEngine.detection_thread].
    repeat split.
    + intros k v Hk. rewrite save_configuration_lookup, Hk. reflexivity.
    + intros k Hk. rewrite save_configuration_lookup, Hk. reflexivity.
  - intros w w0 self unread Hens. cbn zeta.
    set (update := PDict {[ "ConfidenceThreshold" := PFloat Float.lit_0_8 ]}).
    assert (Hpost : configuration (post update) w
                    = (jsonify (message_body true "Configuration saved successfully"),
                       set_engine w0
                         (DetectionEngine.mk
                            ({[ "ConfidenceThreshold" := PFloat Float.lit_0_8 ]}
                             ∪ DetectionEngine.config self)
                            (DetectionEngine.is_running self)
                            (DetectionEngine.detection_thread self))))
      by (unfold configuration; rewrite Hens; reflexivity).
    rewrite Hpost. cbn [fst snd]. split; [reflexivity |].
    unfold configuration, ensure_engine, set_engine.
    cbn [detection_engine method fst DetectionEngine.config].
    eexists. split; [reflexivity |]. split.
    + rewrite save_configuration_lookup, lookup_singleton_eq. reflexivity.
    + intros k Hk. rewrite save_configuration_lookup, lookup_singleton_ne by congruence.
      reflexivity.
Qed.

Lemma save_configuration_merges_witness :
  let posted :=
    configuration
      (post (PDict {[ "ConfidenceThreshold" := PFloat Float.lit_0_8 ]}))
      (boot ∅ sample_rng) in
  let answer := fst (configuration get (snd posted)) in
  fst posted
  = jsonify (message_body true "Configuration saved successfully") /\
  exists c,
    answer = jsonify (configuration_body c) /\
    c !! "ConfidenceThreshold" = Some (PFloat Float.lit_0_8) /\
    (forall k, k <> "ConfidenceThreshold" ->
               c !! k = DetectionEngine.config sample_engine !! k).
Proof.
  apply (proj2 save_configuration_merges (boot ∅ sample_rng)
               (set_engine (boot ∅ sample_rng) sample_engine) sample_engine).
  vm_compute. reflexivity.
Defined.

(** An unknown key is admitted next to the recognized ones. *)
Example save_configuration_unknown_key :
  exists self',
    DetectionEngine.save_configuration
      sample_engine (PDict {[ "Unknown" := PStr "x" ]}) = Ok self' /\
    DetectionEngine.config self' !! "Unknown" = Some (PStr "x") /\
    DetectionEngine.config self' !! "FOV" = Some (PInt 100).
Proof. eexists. repeat split; vm_compute; reflexivity. Qed.

End ConfigurationStore.

(** * The ingress relay and the status *)

Section IngressRelay.



(** C10: the status always reports the number of stored process
    records and whether that number is positive; without an engine it
    reports that nothing runs and an empty configuration, with status
    200 like any other answer; and it changes nothing. *)
Theorem status_reports_bridge (w : world) :
  exists s,
    status w = (jsonify (status_body s), w) /\
    status_bridge_processes s = Z.of_nat (length (bridge_processes w)) /\
    status_bridge_connected s = bool_decide (0 < length (bridge_processes w))%nat /\
    status_metrics s = detection_metrics w /\
    match detection_engine w with
    | Some self =>
        status_is_running s = DetectionEngine.is_running self /\
        status_configuration s = DetectionEngine.config self
    | None => status_is_running s = false /\ status_configuration s = ∅
    end.
Proof.
  eexists. split; [reflexivity |].
  cbn [status_bridge_processes status_bridge_connected status_metrics
       status_is_running status_configuration].
  repeat split.
  - destruct (bridge_processes w); reflexivity.
  - destruct (detection_engine w); split; reflexivity.
Qed.

End IngressRelay.

(** * Loading the configuration *)

Section Load.

Lemma float_env_read (env : gmap string string) (name : string)
    (dflt : spec_float) :
  match DetectionEngine.float_env env name dflt with
  | Ok f => read_option env name (float_option dflt) = Some (PFloat f)
  | Raise e => read_option env name (float_option dflt) = None /\
               env !! name = Some (str e) /\ e = ValueError (str e)
  end.
Proof.
  unfold DetectionEngine.float_env, read_option.
  destruct (env !! name) as [s |]; [| reflexivity].
  destruct (Py.float_of_str s); [reflexivity | repeat split].
Qed.

Lemma int_env_read (env : gmap string string) (name : string) (dflt : Z) :
  match DetectionEngine.int_env env name dflt with
  | Ok n => read_option env name (int_option dflt) = Some (PInt n)
  | Raise e => read_option env name (int_option dflt) = None /\
               env !! name = Some (str e) /\ e = ValueError (str e)
  end.
Proof.
  unfold DetectionEngine.int_env, read_option.
  destruct (env !! name) as [s |]; [| reflexivity].
  destruct (Py.int_of_str (Py.int_max_str_digits env) s);
    [reflexivity | repeat split].
Qed.

Ltac read_input env name dflt :=
  lazymatch type of dflt with
  | spec_float =>
      let H := fresh "Hread" in
      pose proof (float_env_read env name dflt) as H;
      destruct (DetectionEngine.float_env env name dflt)
  | Z =>
      let H := fresh "Hread" in
      pose proof (int_env_read env name dflt) as H;
      destruct (DetectionEngine.int_env env name dflt)
  end.

(** The branch in which the input just read, the one at position [p]
    of the recognized options, is not a literal. *)
Ltac missing_input p :=
  match goal with
  | H : read_option _ _ _ = None /\ _ /\ _ |- _ =>
      destruct H as (Hnone & Hset & Hexn)
  end;
  split; [| split];
  [ split;
    [ intros [c Hc]; discriminate Hc
    | intros Hall; repeat (apply Forall_cons in Hall; destruct Hall as [? Hall]);
      cbn [fst snd] in *;
      match goal with
      | H1 : read_option ?v ?i ?k = None,
        H2 : is_Some (read_option ?v ?i ?k) |- _ =>
          rewrite H1 in H2; destruct H2 as [? H2]; discriminate H2
      end ]
  | intros c Hc; discriminate Hc
  | intros e' [= <-];
    match goal with
    | Hn : read_option _ _ _ = None, Hs : _ !! _ = Some _,
      Hx : _ = ValueError _ |- _ =>
        exists (take p recognized_options); do 3 eexists;
        unfold recognized_options; cbn [take app];
        split; [reflexivity |];
        split;
        [ repeat (apply Forall_cons; split; [cbn [fst snd]; eauto |]);
          apply Forall_nil_2
        | cbn [fst snd]; split; [exact Hs |];
          split; [exact Hn | exact Hx] ]
    end ].

(** C7, as the code has it: [load_configuration] succeeds exactly on
    the environments in which every recognized option can be read, that
    is in which every numeric input that is set is a text that [int] or
    [float] accepts; it then gives every recognized key the value read
    from its input, which is the documented default when the input is
    unset; and when it fails, it raises the [ValueError] of the first
    input, in the order of the dictionary, whose text is not
    accepted. *)
Theorem load_configuration_reads_options (env : gmap string string) :
  ((exists c, DetectionEngine.load_configuration env = Ok c) <->
   Forall (fun o => is_Some (read_option env (snd (fst o)) (snd o)))
          recognized_options) /\
  (forall c, DetectionEngine.load_configuration env = Ok c ->
             Forall (fun o => c !! fst (fst o)
                              = read_option env (snd (fst o)) (snd o))
                    recognized_options) /\
  (forall e, DetectionEngine.load_configuration env = Raise e ->
             exists before o text rest,
               recognized_options = before ++ o :: rest /\
               Forall (fun o' => is_Some (read_option env (snd (fst o'))
                                                      (snd o')))
                      before /\
               env !! snd (fst o) = Some text /\
               read_option env (snd (fst o)) (snd o) = None /\
               e = ValueError text).
Proof.
  unfold DetectionEngine.load_configuration.
  read_input env "CONFIDENCE_THRESHOLD" Float.lit_0_5; cbn [mbind result_bind];
    [| missing_input 0%nat].
  read_input env "MOUSE_SENSITIVITY" Float.lit_1_0; cbn [mbind result_bind];
    [| missing_input 1%nat].
  read_input env "DETECTION_INTERVAL" 50; cbn [mbind result_bind];
    [| missing_input 2%nat].
  read_input env "FOV" 100; cbn [mbind result_bind]; [| missing_input 6%nat].
  read_input env "SMOOTHING_STRENGTH" 5; cbn [mbind result_bind];
    [| missing_input 8%nat].
  read_input env "TRIGGER_DELAY" 50; cbn [mbind result_bind];
    [| missing_input 10%nat].
  split; [| split].
  - split; [| intros _; eexists; reflexivity].
    intros _. unfold recognized_options.
    repeat (apply Forall_cons; split; [cbn [fst snd]; eauto |]).
    apply Forall_nil_2.
  - intros c [= <-]. unfold recognized_options.
    repeat (apply Forall_cons; split;
            [cbn [fst snd]; first [rewrite Hread | rewrite Hread0
                                  | rewrite Hread1 | rewrite Hread2
                                  | rewrite Hread3 | rewrite Hread4 | idtac];
             reflexivity |]).
    apply Forall_nil_2.
  - intros e He. discriminate He.
Qed.

Lemma load_configuration_reads_options_witness :
  exists c, DetectionEngine.load_configuration
              {[ "FOV" := "90"; "CONFIDENCE_THRESHOLD" := " 0.8 " ]} = Ok c.
Proof.
  apply (proj1 (load_configuration_reads_options
                  {[ "FOV" := "90"; "CONFIDENCE_THRESHOLD" := " 0.8 " ]})).
  unfold recognized_options.
  repeat (apply Forall_cons; split; [vm_compute; eexists; reflexivity |]).
  apply Forall_nil_2.
Defined.

(** Against C7 as it is stated: a numeric input that is not a literal
    makes the load raise, and a boolean input that is not "true" gives
    [False] where the documented default is [True]. *)
Lemma load_configuration_malformed_input :
  DetectionEngine.load_configuration {[ "CONFIDENCE_THRESHOLD" := "abc" ]}
  = Raise (ValueError "abc") /\
  DetectionEngine.__init__ {[ "FOV" := "" ]} = Raise (ValueError "") /\
  DetectionEngine.load_configuration {[ "ENABLE_ESP" := "yes" ]}
  = Ok (<["EnableESP" := PBool false]> default_configuration) /\
  default_configuration !! "EnableESP" = Some (PBool true).
Proof. repeat split; vm_compute; reflexivity. Qed.

(** Without any input the load gives the documented defaults. *)
Example load_configuration_defaults :
  DetectionEngine.load_configuration ∅ = Ok default_configuration.
Proof.
  unfold DetectionEngine.load_configuration, DetectionEngine.float_env,
    DetectionEngine.int_env, DetectionEngine.flag_env, DetectionEngine.str_env.
  rewrite !lookup_empty. reflexivity.
Qed.

(** The literals of the model are what [float] reads from their text,
    and, on a few texts, what [int] and [float] accept. *)
Example float_of_str_literals :
  map Py.float_of_str
      ["0.25"; "0.3"; "0.5"; "0.75"; "0.8"; "1.0"; "1000.0"]
  = map Some [Float.lit_0_25; Float.lit_0_3; Float.lit_0_5; Float.lit_0_75;
              Float.lit_0_8; Float.lit_1_0; Float.lit_1000_0].
Proof. vm_compute. reflexivity. Qed.

Example float_of_str_forms :
  map Py.float_of_str
      ["abc"; ""; "."; "1e"; "1_.5"; "0x10"; " inF "; "-Infinity"; "nan";
       "1e400"; "-0"; "5e-324"; "9007199254740993"]
  = [None; None; None; None; None; None;
     Some (S754_infinity false); Some (S754_infinity true); Some S754_nan;
     Some (S754_infinity false); Some (S754_zero true);
     Some (S754_finite false 1 (-1074));
     Some (S754_finite false 4503599627370496 1)].
Proof. vm_compute. reflexivity. Qed.

Example int_of_str_forms :
  map (Py.int_of_str 4300)
      [" 12_3 "; "-0012"; "+5"; "1__2"; "_12"; "12_"; ""; "1.0"; "abc"; "- 1"]
  = [Some 123; Some (-12); Some 5; None; None; None; None; None; None; None].
Proof. vm_compute. reflexivity. Qed.

(** Beyond ASCII: the bytes 28 to 31 are no blanks for [int], a decimal
    digit of another script counts as its ASCII digit and a Unicode
    blank as a blank, bytes that are no UTF-8 text are refused, and so
    is a text of more than 4300 digits. *)
Example int_of_str_beyond_ascii :
  map (Py.int_of_str 4300)
      [ text_of_bytes [53; 28]; text_of_bytes [28; 53];
        text_of_bytes [217; 165]; text_of_bytes [217; 165; 219; 182];
        text_of_bytes [194; 160; 55; 226; 128; 131];
        text_of_bytes [240; 157; 159; 152];
        text_of_bytes [53; 255]; text_of_bytes [192; 181];
        text_of_bytes [195; 169]; ones 4301%nat ]
  = [None; None; Some 5; Some 56; Some 7; Some 0; None; None; None; None] /\
  match Py.int_of_str 4300 (ones 4300%nat) with
  | Some _ => true
  | None => false
  end = true /\
  map Py.float_of_str
      [ text_of_bytes [217; 165; 46; 217; 165]; text_of_bytes [31; 53];
        text_of_bytes [53; 255] ]
  = [Some (S754_finite false 6192449487634432 (-50)); None; None].
Proof.
  repeat split; vm_compute; reflexivity.
Qed.

(** The limit on the digits follows the setting of the environment:
    zero lifts it, a number from 640 on replaces it, and the text is
    read as [strtol] reads it. *)
Example int_max_str_digits_settings :
  map (fun t => Py.int_max_str_digits {[ "PYTHONINTMAXSTRDIGITS" := t ]})
      ["0"; "640"; "+700"; " 700"; "-0"; "2147483647"; "007000"]
  = [0; 640; 700; 700; 0; 2147483647; 7000] /\
  Py.int_max_str_digits ∅ = 4300 /\
  Py.int_max_str_digits {[ "PYTHONINTMAXSTRDIGITS" := "" ]} = 4300 /\
  match DetectionEngine.int_env
          {[ "PYTHONINTMAXSTRDIGITS" := "0"; "FOV" := ones 4301%nat ]}
          "FOV" 100 with
  | Ok _ => true
  | Raise _ => false
  end = true.
Proof. repeat split; vm_compute; reflexivity. Qed.

End Load.

(** * Further properties of the program *)

(** Case analysis on what a handler or a round does. *)
Ltac handler_simpl :=
  cbn [detection_engine environ loop_threads detection_metrics random emitted
       bridge_processes fst snd method json
       DetectionEngine.is_running DetectionEngine.config
       DetectionEngine.detection_thread DetectionEngine.alive
       DetectionEngine.created] in *.

Ltac handler_cases :=
  unfold index, start_detection, stop_detection, configuration, processes,
    processes_reply, processes_emit, processes_event, processes_assign,
    status, health, thread_round, ensure_engine, DetectionEngine.__init__,
    DetectionEngine.start_detection, DetectionEngine.stop_detection,
    DetectionEngine._detection_loop, DetectionEngine.save_configuration,
    set_engine, set_threads, jsonify, mbind, result_bind, mret, result_ret;
  handler_simpl;
  repeat match goal with
         | |- context [match ?x with _ => _ end] =>
             lazymatch x with
             | context [match _ with _ => _ end] => fail
             | _ => destruct x eqn:?; handler_simpl
             end
         end.

Section Frames.

Lemma step_environ (a : action) (w : world) : environ (step a w) = environ w.
Proof.
  destruct w as [env eng m bp th g log].
  destruct a; cbn [step]; handler_cases; reflexivity.
Qed.

Lemma run_environ (actions : list action) (w : world) :
  environ (run actions w) = environ w.
Proof.
  apply (run_invariant (fun w' => environ w' = environ w)); [| reflexivity].
  intros a w' <-. apply step_environ.
Qed.

(** A loaded configuration is the dictionary of the thirteen options. *)
Lemma load_configuration_Ok_inv (env : gmap string string)
    (c : gmap string pyval) :
  DetectionEngine.load_configuration env = Ok c ->
  exists ct ms di fv ss td,
    c = {[ "ConfidenceThreshold" := PFloat ct;
           "MouseSensitivity" := PFloat ms;
           "DetectionInterval" := PInt di;
           "EnableESP" := PBool (DetectionEngine.flag_env env "ENABLE_ESP" "true");
           "EnableAntiRecoil" :=
             PBool (DetectionEngine.flag_env env "ENABLE_ANTI_RECOIL" "false");
           "TargetProcess" := PStr (DetectionEngine.str_env env "TARGET_PROCESS" "");
           "FOV" := PInt fv;
           "EnableSmoothing" :=
             PBool (DetectionEngine.flag_env env "ENABLE_SMOOTHING" "true");
           "SmoothingStrength" := PInt ss;
           "EnableTriggerBot" :=
             PBool (DetectionEngine.flag_env env "ENABLE_TRIGGER_BOT" "false");
           "TriggerDelay" := PInt td;
           "ModelPath" :=
             PStr (DetectionEngine.str_env env "MODEL_PATH" "Models/yolov8n.onnx");
           "EnableDebugMode" :=
             PBool (DetectionEngine.flag_env env "ENABLE_DEBUG_MODE" "true") ]}.
Proof.
  unfold DetectionEngine.load_configuration, mbind, result_bind, mret, result_ret.
  destruct (DetectionEngine.float_env env "CONFIDENCE_THRESHOLD" _) as [ct |];
    [| discriminate].
  destruct (DetectionEngine.float_env env "MOUSE_SENSITIVITY" _) as [ms |];
    [| discriminate].
  destruct (DetectionEngine.int_env env "DETECTION_INTERVAL" _) as [di |];
    [| discriminate].
  destruct (DetectionEngine.int_env env "FOV" _) as [fv |]; [| discriminate].
  destruct (DetectionEngine.int_env env "SMOOTHING_STRENGTH" _) as [ss |];
    [| discriminate].
  destruct (DetectionEngine.int_env env "TRIGGER_DELAY" _) as [td |];
    [| discriminate].
  intros [= <-]. exists ct, ms, di, fv, ss, td. reflexivity.
Qed.

Lemma load_configuration_keys (env : gmap string string)
    (c : gmap string pyval) :
  DetectionEngine.load_configuration env = Ok c ->
  Forall (fun o => is_Some (c !! fst (fst o))) recognized_options.
Proof.
  intros H. apply load_configuration_Ok_inv in H.
  destruct H as (ct & ms & di & fv & ss & td & ->).
  unfold recognized_options.
  repeat (apply Forall_cons; split; [cbn [fst snd]; eexists; reflexivity |]).
  apply Forall_nil_2.
Qed.

(** The keys of the merged dictionary include those of the old one. *)
Lemma union_keys (d c : gmap string pyval) (keys : list (string * string * option_kind)) :
  Forall (fun o => is_Some (c !! fst (fst o))) keys ->
  Forall (fun o => is_Some ((d ∪ c) !! fst (fst o))) keys.
Proof.
  intros H. eapply Forall_impl; [exact H |].
  intros o Ho. cbv beta in *. apply lookup_union_is_Some. right. exact Ho.
Qed.

Lemma step_holds_recognized_keys (a : action) (w : world) :
  holds_recognized_keys w -> holds_recognized_keys (step a w).
Proof.
  destruct w as [env eng m bp th g log]. unfold holds_recognized_keys.
  destruct a; cbn [step]; handler_cases; intros H; try exact H; try exact I.
  all: try apply union_keys; try exact H.
  all: eapply load_configuration_keys; eassumption.
Qed.

(** X1: in every state the process reaches, the configuration of the
    engine holds every recognized key, whatever was posted: an update
    never removes a key.  Hence the loop always finds its
    [ConfidenceThreshold], and no iteration ends on a [KeyError]. *)
Theorem recognized_keys_never_missing (env : gmap string string) (g : rng)
    (actions : list action) (self : DetectionEngine.t) :
  detection_engine (run actions (boot env g)) = Some self ->
  Forall (fun o => is_Some (DetectionEngine.config self !! fst (fst o)))
         recognized_options /\
  (forall obs m g' key,
      snd (DetectionEngine.iteration self obs m g') <> Raise (KeyError key)).
Proof.
  intros Heng.
  assert (Hkeys : holds_recognized_keys (run actions (boot env g)))
    by (apply run_invariant; [exact step_holds_recognized_keys | exact I]).
  unfold holds_recognized_keys in Hkeys. rewrite Heng in Hkeys.
  split; [exact Hkeys |].
  intros obs m g' key. unfold recognized_options in Hkeys.
  apply Forall_cons in Hkeys. destruct Hkeys as [[thr Hthr] _].
  cbn [fst] in Hthr. unfold DetectionEngine.iteration.
  destruct (DetectionEngine._simulate_detection g') as [batch g''].
  destruct (DetectionEngine.select_best_target batch) as [best |];
    [| discriminate].
  rewrite Hthr.
  destruct (float_gt (confidence best) thr) as [hit | e] eqn:Hgt;
    [discriminate |].
  cbn [snd]. intros [= ->]. unfold float_gt in Hgt.
  destruct thr; discriminate.
Qed.

Lemma recognized_keys_never_missing_witness :
  Forall (fun o => is_Some ((DetectionEngine.config
                               (DetectionEngine.mk
                                  ({[ "FOV" := PStr "wide" ]}
                                   ∪ default_configuration) false None))
                            !! fst (fst o)))
         recognized_options /\
  (forall obs m g' key,
      snd (DetectionEngine.iteration
             (DetectionEngine.mk
                ({[ "FOV" := PStr "wide" ]} ∪ default_configuration) false None)
             obs m g') <> Raise (KeyError key)).
Proof.
  apply (recognized_keys_never_missing
           ∅ sample_rng
           [call_configuration (post (PDict {[ "FOV" := PStr "wide" ]}))]).
  vm_compute. reflexivity.
Defined.

End Frames.

(** * The threshold and the confidence of the records *)

Section Thresholds.

Lemma ltb_leb_trans (a b c : spec_float) :
  Float.ltb a b = true -> Float.leb b c = true -> Float.ltb a c = true.
Proof.
  intros Hab Hbc.
  pose proof (ltb_leb a b Hab) as Hab'.
  destruct (leb_not_nan a b Hab') as [Ha Hb].
  destruct (leb_not_nan b c Hbc) as [_ Hc].
  revert Hab Hbc. unfold Float.ltb, Float.leb, SFltb, SFleb.
  rewrite (SFcompare_rank a b Ha Hb), (SFcompare_rank b c Hb Hc),
    (SFcompare_rank a c Ha Hc).
  pose proof (lex_compare_spec (rank a) (rank b)) as Hs1.
  pose proof (lex_compare_spec (rank b) (rank c)) as Hs2.
  pose proof (lex_compare_spec (rank a) (rank c)) as Hs3.
  destruct (rank a) as [[a1 a2] a3], (rank b) as [[b1 b2] b3],
           (rank c) as [[c1 c2] c3].
  destruct (lex_compare (a1, a2, a3) (b1, b2, b3)),
           (lex_compare (b1, b2, b3) (c1, c2, c3)),
           (lex_compare (a1, a2, a3) (c1, c2, c3));
    intros H1 H2; try reflexivity; try discriminate; lia.
Qed.

Lemma leb_leb_not_gtb (a b c : spec_float) :
  Float.leb a b = true -> Float.leb b c = true -> Float.gtb a c = false.
Proof.
  intros Hab Hbc.
  destruct (leb_not_nan a b Hab) as [Ha Hb].
  destruct (leb_not_nan b c Hbc) as [_ Hc].
  revert Hab Hbc. unfold Float.gtb, Float.leb, SFltb, SFleb.
  rewrite (SFcompare_rank a b Ha Hb), (SFcompare_rank b c Hb Hc),
    (SFcompare_rank c a Hc Ha).
  pose proof (lex_compare_spec (rank a) (rank b)) as Hs1.
  pose proof (lex_compare_spec (rank b) (rank c)) as Hs2.
  pose proof (lex_compare_spec (rank c) (rank a)) as Hs3.
  destruct (rank a) as [[a1 a2] a3], (rank b) as [[b1 b2] b3],
           (rank c) as [[c1 c2] c3].
  destruct (lex_compare (a1, a2, a3) (b1, b2, b3)),
           (lex_compare (b1, b2, b3) (c1, c2, c3)),
           (lex_compare (c1, c2, c3) (a1, a2, a3));
    intros H1 H2; try reflexivity; try discriminate; lia.
Qed.

Lemma gtb_nan_r (a t : spec_float) :
  Float.is_nan t = true -> Float.gtb a t = false.
Proof. destruct t; try discriminate. intros _. reflexivity. Qed.

Lemma simulated_well_formed (g : rng) :
  Forall well_formed (fst (DetectionEngine._simulate_detection g)).
Proof.
  destruct (simulate_detection_cases g) as [-> | (n & g' & _ & ->)];
    [constructor |].
  apply append_detections_spec. constructor.
Qed.

Lemma simulated_length (g : rng) :
  (length (fst (DetectionEngine._simulate_detection g)) <= 3)%nat.
Proof.
  destruct (simulate_detection_cases g) as [-> | (n & g' & Hn & ->)];
    [cbn; lia |].
  destruct (append_detections_spec n [] g') as [_ ->]; [constructor |].
  cbn [length]. lia.
Qed.

(** The best target of a generated batch is one of its well-formed
    records. *)
Lemma simulated_best_well_formed (g : rng) (best : detection) :
  DetectionEngine.select_best_target (fst (DetectionEngine._simulate_detection g))
  = Some best ->
  well_formed best.
Proof.
  intros Hbest.
  pose proof (simulated_well_formed g) as Hwf.
  rewrite Forall_forall in Hwf. apply Hwf.
  apply (proj2 (select_best_target_coherent _)), Hbest.
Qed.

(** X2: the store admits a threshold that is not a number, and from then
    on an iteration whose batch is not empty stops at the comparison
    with a [TypeError]: it publishes nothing and counts no successful
    target, although it has already added the batch to
    [total_detections] and written the timestamp. *)
Theorem non_numeric_threshold_silences_loop :
  (forall (w : world) (self : DetectionEngine.t) (v : pyval),
      detection_engine w = Some self ->
      exists self',
        configuration (post (PDict {[ "ConfidenceThreshold" := v ]})) w
        = (jsonify (message_body true "Configuration saved successfully"),
           set_engine w self') /\
        DetectionEngine.config self' !! "ConfidenceThreshold" = Some v) /\
  (forall (self : DetectionEngine.t) (obs : clock) (m : metrics) (g : rng)
          (threshold : pyval),
      DetectionEngine.config self !! "ConfidenceThreshold" = Some threshold ->
      is_number threshold = false ->
      fst (DetectionEngine._simulate_detection g) <> [] ->
      let batch := fst (DetectionEngine._simulate_detection g) in
      let m' := fst (fst (DetectionEngine.iteration self obs m g)) in
      (exists msg, snd (DetectionEngine.iteration self obs m g)
                   = Raise (TypeError msg)) /\
      total_detections m' = total_detections m + Z.of_nat (length batch) /\
      successful_targets m' = successful_targets m /\
      last_detection_time m' = Some (now_metrics obs)).
Proof.
  split.
  - intros w self v Heng. destruct w as [env eng m bp th g log].
    cbn in Heng. subst eng. eexists. split; [reflexivity |].
    cbn [DetectionEngine.config]. apply lookup_union_Some_l, lookup_singleton_eq.
  - intros self obs m g threshold Hthr Hnum Hne. cbn zeta.
    unfold DetectionEngine.iteration.
    destruct (DetectionEngine._simulate_detection g) as [batch g'].
    cbn [fst] in Hne.
    destruct batch as [| d rest]; [congruence |].
    cbn [DetectionEngine.select_best_target]. rewrite Hthr.
    destruct threshold; try discriminate Hnum; cbn [float_gt fst snd];
      (split; [eexists; reflexivity | repeat split]).
Qed.

Lemma non_numeric_threshold_silences_loop_witness :
  let self := DetectionEngine.mk
                ({[ "ConfidenceThreshold" := PStr "high" ]} ∪ default_configuration)
                true (Some 0%nat) in
  let m' := fst (fst (DetectionEngine.iteration self sample_clock
                                                initial_metrics sample_rng)) in
  (exists msg, snd (DetectionEngine.iteration self sample_clock initial_metrics
                                              sample_rng)
               = Raise (TypeError msg)) /\
  total_detections m'
  = total_detections initial_metrics
    + Z.of_nat (length (fst (DetectionEngine._simulate_detection sample_rng))) /\
  successful_targets m' = successful_targets initial_metrics /\
  last_detection_time m' = Some (now_metrics sample_clock).
Proof.
  apply (proj2 non_numeric_threshold_silences_loop
               (DetectionEngine.mk
                  ({[ "ConfidenceThreshold" := PStr "high" ]}
                   ∪ default_configuration) true (Some 0%nat))
               sample_clock initial_metrics sample_rng (PStr "high")).
  - vm_compute. reflexivity.
  - reflexivity.
  - vm_compute. discriminate.
Defined.

(** X3: how a float threshold meets the confidences the simulation can
    produce, which lie in [[0.75, 1.0]].  Below [0.75] (the default
    [0.5] for one) every iteration with a batch that is not empty counts
    one successful target; from [1.0] upwards, and on a NaN, no
    iteration ever counts one. *)
Theorem threshold_against_confidence_range
    (self : DetectionEngine.t) (obs : clock) (m : metrics) (g : rng)
    (t : spec_float) :
  DetectionEngine.config self !! "ConfidenceThreshold" = Some (PFloat t) ->
  let batch := fst (DetectionEngine._simulate_detection g) in
  let m' := fst (fst (DetectionEngine.iteration self obs m g)) in
  (Float.ltb t Float.lit_0_75 = true -> batch <> [] ->
   successful_targets m' = successful_targets m + 1) /\
  (Float.leb Float.lit_1_0 t = true \/ Float.is_nan t = true ->
   successful_targets m' = successful_targets m).
Proof.
  intros Hthr. cbn zeta.
  destruct (iteration_metrics self obs m g) as (_ & -> & _).
  pose proof (simulated_best_well_formed g) as Hbest.
  destruct (DetectionEngine.select_best_target
              (fst (DetectionEngine._simulate_detection g))) as [best |] eqn:Hsel.
  - destruct (Hbest best eq_refl) as (_ & Hlo & Hhi & _).
    unfold exceeds_threshold. rewrite Hthr. cbn [float_gt].
    split.
    + intros Hlt _. unfold Float.gtb. fold (Float.ltb t (confidence best)).
      rewrite (ltb_leb_trans t Float.lit_0_75 (confidence best) Hlt Hlo).
      reflexivity.
    + intros [Hge | Hnan].
      * rewrite (leb_leb_not_gtb (confidence best) Float.lit_1_0 t Hhi Hge). lia.
      * rewrite (gtb_nan_r (confidence best) t Hnan). lia.
  - split.
    + intros _ Hne. exfalso. apply Hne.
      apply (proj1 (select_best_target_coherent _)), Hsel.
    + intros _. lia.
Qed.

Lemma threshold_against_confidence_range_witness :
  let batch := fst (DetectionEngine._simulate_detection sample_rng) in
  let m' := fst (fst (DetectionEngine.iteration
                        (DetectionEngine.mk default_configuration true (Some 0%nat))
                        sample_clock initial_metrics sample_rng)) in
  (Float.ltb Float.lit_0_5 Float.lit_0_75 = true -> batch <> [] ->
   successful_targets m' = successful_targets initial_metrics + 1) /\
  (Float.leb Float.lit_1_0 Float.lit_0_5 = true
   \/ Float.is_nan Float.lit_0_5 = true ->
   successful_targets m' = successful_targets initial_metrics).
Proof.
  apply (threshold_against_confidence_range
           (DetectionEngine.mk default_configuration true (Some 0%nat))
           sample_clock initial_metrics sample_rng Float.lit_0_5).
  vm_compute. reflexivity.
Defined.

End Thresholds.

(** * What the loop publishes and counts *)

Section Published.

Lemma iteration_payload (self : DetectionEngine.t) (obs : clock)
    (m : metrics) (g : rng) (d : detection_data) :
  snd (DetectionEngine.iteration self obs m g) = Ok d ->
  detections d = fst (DetectionEngine._simulate_detection g) /\
  best_target d = DetectionEngine.select_best_target (detections d) /\
  screenshot_size d = (1920, 1080) /\
  timestamp d = now_emit obs /\
  processing_time d
  = Float.mul (Float.sub (end_time obs) (start_time obs)) Float.lit_1000_0.
Proof.
  unfold DetectionEngine.iteration.
  destruct (DetectionEngine._simulate_detection g) as [batch g'].
  destruct (DetectionEngine.select_best_target batch) as [best |] eqn:Hsel.
  - destruct (DetectionEngine.config self !! "ConfidenceThreshold")
      as [threshold |]; [| discriminate].
    destruct (float_gt (confidence best) threshold) as [hit | e];
      [| discriminate].
    cbn [snd fst]. intros [= <-]. cbn. rewrite Hsel. repeat split.
  - cbn [snd fst]. intros [= <-]. cbn. rewrite Hsel. repeat split.
Qed.

Lemma well_formed_inside (d : detection) :
  well_formed d -> inside_frame (1920, 1080) d /\ center_inside_box d.
Proof.
  intros (_ & _ & _ & Hx & Hy & Hw & Hh & Hc).
  unfold inside_frame, center_inside_box. rewrite Hc. cbn [fst snd px py].
  pose proof (Z.div_pos (width (bounding_box d)) 2 ltac:(lia) ltac:(lia)).
  pose proof (Z.div_pos (height (bounding_box d)) 2 ltac:(lia) ltac:(lia)).
  pose proof (Z.div_le_upper_bound (width (bounding_box d)) 2
                (width (bounding_box d)) ltac:(lia) ltac:(lia)).
  pose proof (Z.div_le_upper_bound (height (bounding_box d)) 2
                (height (bounding_box d)) ltac:(lia) ltac:(lia)).
  lia.
Qed.

(** What a run from the start can have published: payloads of
    iterations. *)
Lemma published_from_iteration (env : gmap string string) (g : rng)
    (actions : list action) (d : detection_data) :
  detection_update d ∈ emitted (run actions (boot env g)) ->
  exists self obs m g',
    snd (DetectionEngine.iteration self obs m g') = Ok d.
Proof.
  revert d.
  apply (run_invariant
           (fun w => forall d, detection_update d ∈ emitted w ->
                               exists self obs m g',
                                 snd (DetectionEngine.iteration self obs m g')
                                 = Ok d)).
  - intros a w Hw d.
    destruct (step_emitted a w)
      as [-> | [(b & ->) | (self & obs & d' & Hit & ->)]].
    + apply Hw.
    + intros Hin. apply elem_of_cons in Hin.
      destruct Hin as [Heq | Hin]; [discriminate | exact (Hw d Hin)].
    + intros Hin. apply elem_of_cons in Hin.
      destruct Hin as [[= ->] | Hin]; [eauto | exact (Hw d Hin)].
  - cbn [boot emitted]. intros d Hin. apply elem_of_nil in Hin. contradiction.
Qed.

(** X4: every [detection_update] published in a run announces a frame
    of 1920 by 1080 and carries at most three records; each record is
    well formed, its box lies entirely within the announced frame, and
    its center lies within its box. *)
Theorem published_records_inside_frame (env : gmap string string) (g : rng)
    (actions : list action) (d : detection_data) :
  detection_update d ∈ emitted (run actions (boot env g)) ->
  screenshot_size d = (1920, 1080) /\
  (length (detections d) <= 3)%nat /\
  Forall (fun r => well_formed r /\ inside_frame (screenshot_size d) r /\
                   center_inside_box r)
         (detections d).
Proof.
  intros Hin.
  destruct (published_from_iteration env g actions d Hin)
    as (self & obs & m & g' & Hit).
  destruct (iteration_payload self obs m g' d Hit) as (Hd & _ & Hs & _).
  rewrite Hs, Hd. split; [reflexivity |].
  split; [apply simulated_length |].
  eapply Forall_impl; [apply simulated_well_formed |].
  intros r Hr. split; [exact Hr | apply well_formed_inside, Hr].
Qed.

Lemma published_records_inside_frame_witness :
  exists d,
    detection_update d
    ∈ emitted (run [call_start_detection; loop_round 0 sample_clock]
                   (boot ∅ sample_rng)) /\
    screenshot_size d = (1920, 1080) /\
    (length (detections d) <= 3)%nat /\
    Forall (fun r => well_formed r /\ inside_frame (screenshot_size d) r /\
                     center_inside_box r)
           (detections d).
Proof.
  eexists. split.
  - vm_compute. apply list_elem_of_here.
  - apply (published_records_inside_frame
             ∅ sample_rng [call_start_detection; loop_round 0 sample_clock]).
    vm_compute. apply list_elem_of_here.
Defined.

(** X5: the best target of every published payload whose list of
    detections is not empty is the first record of that list with the
    greatest confidence, and is a well-formed record. *)
Theorem published_best_target_first_maximum (env : gmap string string)
    (g : rng) (actions : list action) (d : detection_data) :
  detection_update d ∈ emitted (run actions (boot env g)) ->
  detections d <> [] ->
  exists best,
    best_target d = Some best /\
    first_maximum (detections d) best /\
    well_formed best.
Proof.
  intros Hin Hne.
  destruct (published_from_iteration env g actions d Hin)
    as (self & obs & m & g' & Hit).
  destruct (iteration_payload self obs m g' d Hit) as (Hd & Hb & _).
  rewrite Hb.
  pose proof (simulated_well_formed g') as Hwf. rewrite <- Hd in Hwf.
  destruct (detections d) as [| r rest] eqn:Hdet; [congruence |].
  exists (max_from r rest). split; [reflexivity |]. split.
  - apply (max_from_first_maximum rest [r] r 0).
    + apply well_formed_no_nan, Hwf.
    + reflexivity.
    + intros d0 Hd0. apply list_elem_of_singleton in Hd0. subst d0.
      apply leb_refl. apply well_formed_no_nan in Hwf.
      inversion Hwf; assumption.
    + intros j d0 Hj. lia.
  - rewrite Forall_forall in Hwf. apply Hwf.
    destruct (max_from_in rest r) as [-> | Hmax]; [left | right; exact Hmax].
Qed.

Lemma published_best_target_first_maximum_witness :
  exists d best,
    detection_update d
    ∈ emitted (run [call_start_detection; loop_round 0 sample_clock]
                   (boot ∅ sample_rng)) /\
    best_target d = Some best /\
    first_maximum (detections d) best /\
    well_formed best.
Proof.
  eexists.
  assert (Hin : detection_update ?[d]
                ∈ emitted (run [call_start_detection; loop_round 0 sample_clock]
                               (boot ∅ sample_rng)))
    by (vm_compute; apply list_elem_of_here).
  destruct (published_best_target_first_maximum
              ∅ sample_rng [call_start_detection; loop_round 0 sample_clock]
              _ Hin) as (best & Hb).
  - vm_compute. discriminate.
  - exists best. split; [exact Hin | exact Hb].
Defined.

End Published.

(** * The counters, and the loop around its start and its stop *)

Section Counters.

Lemma step_metrics_no_round (a : action) (w : world) :
  is_round a = false -> detection_metrics (step a w) = detection_metrics w.
Proof.
  destruct w as [env eng m bp th g log].
  destruct a; cbn [step is_round]; try discriminate; intros _;
    handler_cases; reflexivity.
Qed.

(** What an iteration adds to the two counters. *)
Lemma iteration_increments (self : DetectionEngine.t) (obs : clock)
    (m : metrics) (g : rng) :
  let m' := fst (fst (DetectionEngine.iteration self obs m g)) in
  exists n s : Z,
    total_detections m' = total_detections m + n /\
    successful_targets m' = successful_targets m + s /\
    0 <= s <= n /\ n <= 3 /\ s <= 1 /\
    last_detection_time m' <> None.
Proof.
  cbn zeta. destruct (iteration_metrics self obs m g) as (Ht & Hs & Hl & _).
  pose proof (simulated_length g) as Hlen.
  pose proof (select_best_target_coherent
                (fst (DetectionEngine._simulate_detection g))) as [Hnone _].
  exists (Z.of_nat (length (fst (DetectionEngine._simulate_detection g)))).
  eexists. split; [exact Ht |]. split; [exact Hs |].
  rewrite Hl.
  destruct (DetectionEngine.select_best_target _) as [best |].
  - assert (fst (DetectionEngine._simulate_detection g) <> [])
      by (intros Hnil; apply Hnone in Hnil; discriminate).
    destruct (fst (DetectionEngine._simulate_detection g)); [congruence |].
    cbn [length] in *. destruct (exceeds_threshold self best);
      repeat split; try lia; discriminate.
  - repeat split; try lia; discriminate.
Qed.

Lemma run_total_bound (actions : list action) :
  forall w,
    total_detections (detection_metrics (run actions w))
    <= total_detections (detection_metrics w) + 3 * Z.of_nat (rounds actions).
Proof.
  induction actions as [| a actions IH]; intros w.
  - cbn. lia.
  - cbn [run fold_left]. fold (run actions (step a w)).
    specialize (IH (step a w)). unfold rounds in *. rewrite filter_cons.
    destruct (is_round a) eqn:Hr.
    + destruct (decide (true = true)) as [_ | Hne]; [| congruence].
      cbn [length].
      destruct (step_metrics a w) as [Heq | (self & obs & Heq)].
      * rewrite Heq in IH. lia.
      * destruct (iteration_increments self obs (detection_metrics w) (random w))
          as (n & s & Hn & _ & _ & Hn3 & _).
        rewrite Heq in IH. cbn zeta in Hn. lia.
    + destruct (decide (false = true)) as [Heq | _]; [discriminate |].
      rewrite (step_metrics_no_round a w Hr) in IH. exact IH.
Qed.

(** X6: in every state the process reaches, the successful targets are
    counted between zero and the total of detections, the total is at
    most three times the number of rounds of the loop that were run,
    and the metrics still have their initial values as long as no
    timestamp is recorded. *)
Theorem metrics_bounds (env : gmap string string) (g : rng)
    (actions : list action) :
  let m := detection_metrics (run actions (boot env g)) in
  0 <= successful_targets m <= total_detections m /\
  total_detections m <= 3 * Z.of_nat (rounds actions) /\
  (last_detection_time m = None <-> m = initial_metrics).
Proof.
  cbn zeta. split; [| split].
  - apply (run_invariant
             (fun w => 0 <= successful_targets (detection_metrics w)
                       <= total_detections (detection_metrics w)));
      [| cbn; lia].
    intros a w Hw.
    destruct (step_metrics a w) as [-> | (self & obs & ->)]; [exact Hw |].
    destruct (iteration_increments self obs (detection_metrics w) (random w))
      as (n & s & Hn & Hs & Hb & _).
    cbn zeta in Hn, Hs. lia.
  - pose proof (run_total_bound actions (boot env g)) as H.
    cbn [boot detection_metrics initial_metrics total_detections] in H. lia.
  - apply (run_invariant
             (fun w => last_detection_time (detection_metrics w) = None
                       <-> detection_metrics w = initial_metrics));
      [| cbn; tauto].
    intros a w Hw.
    destruct (step_metrics a w) as [-> | (self & obs & ->)]; [exact Hw |].
    destruct (iteration_increments self obs (detection_metrics w) (random w))
      as (n & s & _ & _ & _ & _ & _ & Hl).
    cbn zeta in Hl. split; [intros H; contradiction |].
    intros H. rewrite H in Hl. cbn in Hl. congruence.
Qed.

Lemma step_never_started (g : rng) (a : action) (w : world) :
  is_start a = false -> never_started g w -> never_started g (step a w).
Proof.
  destruct w as [env eng m bp th g0 log]. unfold never_started.
  handler_simpl. intros Ha (Hal & Hrun & Hm & Hg & Hlog).
  destruct a; cbn [step is_start] in *; try discriminate;
    handler_cases; subst; cbn in *; repeat split; auto; try congruence.
  all: try (constructor; [reflexivity | assumption]).
  all: try match goal with
       | H : _ ∈ [] |- _ => apply elem_of_nil in H; contradiction
       end.
  all: rewrite Hal; reflexivity.
Qed.

(** X7: nothing of the loop happens before the first start request.  In
    a run without a start no thread is alive, the engine, if a request
    has created it, is not running, the metrics are the initial ones,
    no random number has been drawn and no detection has been
    published. *)
Theorem nothing_before_start (env : gmap string string) (g : rng)
    (actions : list action) :
  Forall (fun a => is_start a = false) actions ->
  never_started g (run actions (boot env g)).
Proof.
  intros Hno. revert Hno.
  assert (H0 : never_started g (boot env g))
    by (unfold never_started; cbn; repeat split; constructor).
  revert H0. generalize (boot env g) as w.
  induction actions as [| a actions IH]; intros w Hw Hno; [exact Hw |].
  inversion Hno as [| ? ? Ha Hrest]; subst.
  cbn [run fold_left]. apply IH; [| exact Hrest].
  apply step_never_started; assumption.
Qed.

Lemma nothing_before_start_witness :
  never_started sample_rng
    (run [call_configuration get; call_stop_detection true;
          loop_round 0 sample_clock;
          call_processes (post (PList [PStr "a.exe"])) "now"; call_status]
         (boot ∅ sample_rng)).
Proof.
  apply nothing_before_start. repeat constructor.
Defined.

Lemma filter_ne_absent (tid : nat) (l : list nat) :
  tid ∉ l -> filter (fun i => i <> tid) l = l.
Proof.
  induction l as [| i l IH]; intros Hnot; [reflexivity |].
  rewrite filter_cons. apply not_elem_of_cons in Hnot. destruct Hnot as [Hne Hl].
  destruct (decide (i <> tid)) as [_ | Heq];
    [| exfalso; apply Heq; congruence].
  rewrite (IH Hl). reflexivity.
Qed.

(** A round of a live thread of a stopped engine: the thread returns,
    and nothing else changes. *)
Lemma stopped_round (tid : nat) (obs : clock) (w : world)
    (self : DetectionEngine.t) :
  detection_engine w = Some self ->
  DetectionEngine.is_running self = false ->
  thread_round tid obs w
  = set_threads w
      (DetectionEngine.mk_threads
         (filter (fun i => i <> tid) (DetectionEngine.alive (loop_threads w)))
         (DetectionEngine.created (loop_threads w))).
Proof.
  intros Heng Hrun. destruct w as [env eng m bp th g log].
  cbn in Heng. subst eng. unfold thread_round, DetectionEngine._detection_loop.
  handler_simpl. rewrite Hrun. case_bool_decide as Hin; [reflexivity |].
  unfold set_threads. handler_simpl. destruct th as [al cr]. handler_simpl.
  f_equal. f_equal. symmetry. apply filter_ne_absent. exact Hin.
Qed.

(** X8: once the flag is cleared, a round of a thread of the loop makes
    it return without publishing or counting anything.  When every
    thread that is still alive has gone through one round before the
    next start, no thread is left, whether the [join] of the stop had
    timed out or not. *)
Theorem stopped_threads_exit (turns : list (nat * clock)) :
  forall (w : world) (self : DetectionEngine.t),
    detection_engine w = Some self ->
    DetectionEngine.is_running self = false ->
    (forall tid, tid ∈ DetectionEngine.alive (loop_threads w) ->
                 tid ∈ map fst turns) ->
    let w' := run (map (fun turn => loop_round (fst turn) (snd turn)) turns) w in
    DetectionEngine.alive (loop_threads w') = [] /\
    detection_engine w' = Some self /\
    detection_metrics w' = detection_metrics w /\
    emitted w' = emitted w /\
    random w' = random w.
Proof.
  induction turns as [| [tid obs] turns IH]; intros w self Heng Hrun Hcover;
    cbn zeta.
  - cbn [map run fold_left]. repeat split; try assumption.
    destruct (DetectionEngine.alive (loop_threads w)) as [| t rest] eqn:Hal;
      [reflexivity |].
    specialize (Hcover t ltac:(left)). apply elem_of_nil in Hcover.
    contradiction.
  - cbn [map run fold_left fst snd step].
    rewrite (stopped_round tid obs w self Heng Hrun).
    set (w1 := set_threads w _).
    specialize (IH w1 self ltac:(subst w1; destruct w; exact Heng) Hrun).
    cbn zeta in IH. fold (run (map (fun turn => loop_round turn.1 turn.2) turns) w1).
    destruct IH as (H1 & H2 & H3 & H4 & H5).
    + intros t Ht. subst w1. destruct w as [env eng m bp th g log].
      cbn in Ht. apply list_elem_of_filter in Ht. destruct Ht as [Hne Ht].
      specialize (Hcover t Ht). cbn [map fst] in Hcover.
      apply elem_of_cons in Hcover. destruct Hcover; [congruence | assumption].
    + subst w1. destruct w. repeat split; assumption.
Qed.

Lemma stopped_threads_exit_witness :
  let w := run [call_start_detection; loop_round 0 sample_clock;
                call_stop_detection false]
               (boot slow_environ sample_rng) in
  let w' := run (map (fun turn => loop_round (fst turn) (snd turn))
                     [(0%nat, sample_clock)]) w in
  DetectionEngine.alive (loop_threads w') = [] /\
  detection_engine w'
  = Some (DetectionEngine.mk
            (<["DetectionInterval" := PInt 5000]> default_configuration)
            false (Some 0%nat)) /\
  detection_metrics w' = detection_metrics w /\
  emitted w' = emitted w /\
  random w' = random w.
Proof.
  apply (stopped_threads_exit [(0%nat, sample_clock)]).
  - vm_compute. reflexivity.
  - reflexivity.
  - intros tid Htid. vm_compute in Htid. exact Htid.
Defined.

End Counters.

(** * The stores across a run *)

Section Stores.

Lemma step_bridge_no_post (a : action) (w : world) :
  is_processes_post a = false ->
  bridge_processes (step a w) = bridge_processes w.
Proof.
  destruct w as [env eng m bp th g log].
  destruct a as [| | joined | req | [[|] [v | code text]] now | | | tid obs];
    cbn [step is_processes_post]; try discriminate; intros _;
    handler_cases; reflexivity.
Qed.

(** X9: the stored list of processes is changed by nothing but a POST of
    processes with a decodable body: neither the other requests nor the
    loop touch it.  Hence a GET of processes, after any such activity,
    still answers the list of the last POST. *)
Theorem stored_processes_stable :
  (forall (actions : list action) (w : world),
      Forall (fun a => is_processes_post a = false) actions ->
      bridge_processes (run actions w) = bridge_processes w) /\
  (forall (actions : list action) (w : world) (l : list pyval)
          (t t' : string) (unread : json_body),
      Forall (fun a => is_processes_post a = false) actions ->
      fst (processes (mk_request GET unread) t'
                     (run actions (snd (processes (post (PList l)) t w))))
      = jsonify (processes_body l)).
Proof.
  assert (Hstable : forall actions w,
             Forall (fun a => is_processes_post a = false) actions ->
             bridge_processes (run actions w) = bridge_processes w).
  { induction actions as [| a actions IH]; intros w Hno; [reflexivity |].
    inversion Hno as [| ? ? Ha Hrest]; subst.
    cbn [run fold_left]. fold (run actions (step a w)).
    rewrite (IH (step a w) Hrest). apply step_bridge_no_post, Ha. }
  split; [exact Hstable |].
  intros actions w l t t' unread Hno.
  unfold processes at 1. cbn [method fst]. rewrite (Hstable _ _ Hno).
  reflexivity.
Qed.

Lemma stored_processes_stable_witness :
  fst (processes get "later"
         (run [call_start_detection; loop_round 0 sample_clock;
               call_configuration (post (PDict ∅)); call_processes get "t"]
              (snd (processes (post (PList [PStr "a.exe"])) "now"
                              (boot ∅ sample_rng)))))
  = jsonify (processes_body [PStr "a.exe"]).
Proof.
  apply (proj2 stored_processes_stable). repeat constructor.
Defined.

Lemma step_config_no_post (a : action) (w : world) (self : DetectionEngine.t) :
  is_configuration_post a = false ->
  detection_engine w = Some self ->
  exists self',
    detection_engine (step a w) = Some self' /\
    DetectionEngine.config self' = DetectionEngine.config self.
Proof.
  destruct w as [env eng m bp th g log]. cbn [detection_engine].
  intros Ha ->.
  destruct a as [| | joined | [[|] [v | code text]] | req now | | | tid obs];
    cbn [step is_configuration_post] in *; try discriminate;
    handler_cases; eexists; split; reflexivity.
Qed.

(** X10: as long as the requests are served one at a time, an engine
    that exists is never dropped, and its configuration is changed by
    nothing but a POST of a configuration: starting, stopping, the
    rounds of the loop and every other request leave each option as it
    was.  (A first request that overlaps another may still replace the
    engine the other has created: see
    [second_loop_after_overlapping_starts].) *)
Theorem configuration_stable (actions : list action) :
  forall (w : world) (self : DetectionEngine.t),
    detection_engine w = Some self ->
    Forall (fun a => is_configuration_post a = false) actions ->
    exists self',
      detection_engine (run actions w) = Some self' /\
      DetectionEngine.config self' = DetectionEngine.config self.
Proof.
  induction actions as [| a actions IH]; intros w self Heng Hno.
  - exists self. split; [exact Heng | reflexivity].
  - inversion Hno as [| ? ? Ha Hrest]; subst.
    destruct (step_config_no_post a w self Ha Heng) as (self1 & Heng1 & Hc1).
    destruct (IH (step a w) self1 Heng1 Hrest) as (self' & Heng' & Hc').
    exists self'. split; [exact Heng' | congruence].
Qed.

Lemma configuration_stable_witness :
  exists self',
    detection_engine
      (run [call_start_detection; loop_round 0 sample_clock;
            call_stop_detection true; call_configuration get]
           (set_engine (boot ∅ sample_rng) sample_engine))
    = Some self' /\
    DetectionEngine.config self' = DetectionEngine.config sample_engine.
Proof.
  apply configuration_stable; [reflexivity | repeat constructor].
Defined.

(** X11: updates of the configuration compose.  Two updates in a row
    are one update with the second dictionary merged over the first;
    an update applied twice is the update applied once; the empty
    update changes nothing. *)
Theorem save_configuration_composes (self : DetectionEngine.t)
    (d1 d2 : gmap string pyval) :
  (DetectionEngine.save_configuration self (PDict d1)
   ≫= fun s => DetectionEngine.save_configuration s (PDict d2))
  = DetectionEngine.save_configuration self (PDict (d2 ∪ d1)) /\
  (DetectionEngine.save_configuration self (PDict d1)
   ≫= fun s => DetectionEngine.save_configuration s (PDict d1))
  = DetectionEngine.save_configuration self (PDict d1) /\
  DetectionEngine.save_configuration self (PDict ∅) = Ok self.
Proof.
  destruct self as [c running th].
  unfold DetectionEngine.save_configuration, mbind, result_bind.
  cbn [DetectionEngine.config DetectionEngine.is_running
       DetectionEngine.detection_thread].
  split; [| split].
  - rewrite (assoc_L (∪)). reflexivity.
  - rewrite (assoc_L (∪)), (idemp_L (∪) d1). reflexivity.
  - rewrite (left_id_L ∅ (∪)). reflexivity.
Qed.

(** X12: a POST of a configuration whose body is not an object is
    answered by a failure with status 400 that names the type of the
    body, and an undecodable body by the status of the framework's
    error; in both cases nothing of the state changes. *)
Theorem configuration_rejects_non_mapping (w : world)
    (self : DetectionEngine.t) :
  detection_engine w = Some self ->
  (forall v, (forall d, v <> PDict d) ->
             configuration (post v) w
             = (mk_response
                  (message_body false
                     ("'" +:+ type_name v +:+ "' object is not a mapping"))
                  400, w)) /\
  (forall code text,
      configuration (mk_request POST (JsonError code text)) w
      = (mk_response error_page code, w)).
Proof.
  intros Heng. destruct w as [env eng m bp th g log]. cbn in Heng. subst eng.
  split.
  - intros v Hv. unfold configuration, ensure_engine. cbn.
    destruct v; try reflexivity. exfalso. exact (Hv d eq_refl).
  - intros code text. reflexivity.
Qed.

Lemma configuration_rejects_non_mapping_witness :
  (forall v, (forall d, v <> PDict d) ->
             configuration (post v) (set_engine (boot ∅ sample_rng) sample_engine)
             = (mk_response
                  (message_body false
                     ("'" +:+ type_name v +:+ "' object is not a mapping"))
                  400, set_engine (boot ∅ sample_rng) sample_engine)) /\
  (forall code text,
      configuration (mk_request POST (JsonError code text))
                    (set_engine (boot ∅ sample_rng) sample_engine)
      = (mk_response error_page code,
         set_engine (boot ∅ sample_rng) sample_engine)).
Proof.
  apply (configuration_rejects_non_mapping
           (set_engine (boot ∅ sample_rng) sample_engine) sample_engine).
  reflexivity.
Defined.

Example configuration_rejects_list :
  fst (configuration (post (PList [PInt 1])) (boot ∅ sample_rng))
  = mk_response (message_body false "'list' object is not a mapping") 400.
Proof. vm_compute. reflexivity. Qed.

End Stores.

(** * Answers and events across a run *)

Section Answers.

Lemma step_engine_kept (a : action) (w : world) :
  is_Some (detection_engine w) -> is_Some (detection_engine (step a w)).
Proof.
  destruct w as [env eng m bp th g log]. cbn [detection_engine].
  intros [self ->].
  destruct a; cbn [step]; handler_cases; eexists; reflexivity.
Qed.

Lemma run_engine_kept (actions : list action) (w : world) :
  is_Some (detection_engine w) -> is_Some (detection_engine (run actions w)).
Proof.
  apply (run_invariant (fun w' => is_Some (detection_engine w'))).
  intros a w'. apply step_engine_kept.
Qed.

Lemma answer_with_engine (a : action) (w : world) (r : response) :
  is_Some (detection_engine w) ->
  answer a w = Some r ->
  status_code r = 200 \/ status_code r = 400 \/
  exists text,
    a = call_configuration (mk_request POST (JsonError (status_code r) text)).
Proof.
  destruct w as [env eng m bp th g log]. cbn [detection_engine].
  intros [self ->].
  destruct a as [| | joined | [mth bd] | [mth bd] now | | | tid obs];
    cbn [answer]; intros [= <-]; handler_cases; cbn;
    try (left; reflexivity); try (right; left; reflexivity).
  right; right. eexists. reflexivity.
Qed.

(** X13: once the engine exists, no request is answered by a server
    error.  Every answer has status 200 or 400, but for a POST of a
    configuration with an undecodable body, which is answered with the
    status of the framework's error. *)
Theorem no_server_error_with_engine (before : list action) (a : action)
    (w : world) (r : response) :
  is_Some (detection_engine w) ->
  answer a (run before w) = Some r ->
  status_code r = 200 \/ status_code r = 400 \/
  exists text,
    a = call_configuration (mk_request POST (JsonError (status_code r) text)).
Proof.
  intros Heng. apply answer_with_engine, run_engine_kept, Heng.
Qed.

Lemma no_server_error_with_engine_witness :
  status_code (mk_response (message_body false "Detection already running") 200)
  = 200 \/
  status_code (mk_response (message_body false "Detection already running") 200)
  = 400 \/
  exists text,
    call_start_detection
    = call_configuration
        (mk_request POST
           (JsonError
              (status_code
                 (mk_response (message_body false "Detection already running")
                              200)) text)).
Proof.
  apply (no_server_error_with_engine
           [call_start_detection; loop_round 0 sample_clock]
           call_start_detection
           (set_engine (boot ∅ sample_rng) sample_engine)).
  - eexists. reflexivity.
  - reflexivity.
Defined.

Lemma step_without_engine (env : gmap string string) (g : rng) (e : exn)
    (a : action) (w : world) :
  DetectionEngine.load_configuration env = Raise e ->
  environ w = env /\ detection_engine w = None /\ never_started g w ->
  environ (step a w) = env /\ detection_engine (step a w) = None /\
  never_started g (step a w).
Proof.
  destruct w as [env0 eng m bp th g0 log]. unfold never_started.
  handler_simpl. intros Hload (-> & -> & Hal & _ & Hm & Hg & Hlog).
  destruct a; cbn [step]; handler_cases; subst; cbn in *;
    try congruence; repeat split; auto.
  all: try (constructor; [reflexivity | assumption]).
  all: try match goal with
       | H : _ ∈ [] |- _ => apply elem_of_nil in H; contradiction
       end.
Qed.

(** X14: a malformed numeric input of the environment is never recovered
    from.  Whatever is requested, the engine is never created: every
    start and every configuration request is answered by a server error,
    a stop request by the failure "Detection engine not initialized",
    and no loop ever runs, so the metrics keep their initial values. *)
Theorem malformed_environment_never_recovers (env : gmap string string)
    (g : rng) (e : exn) (actions : list action) :
  DetectionEngine.load_configuration env = Raise e ->
  detection_engine (run actions (boot env g)) = None /\
  never_started g (run actions (boot env g)) /\
  fst (start_detection (run actions (boot env g))) = internal_server_error /\
  (forall req,
      fst (configuration req (run actions (boot env g)))
      = internal_server_error) /\
  (forall joined,
      fst (stop_detection joined (run actions (boot env g)))
      = jsonify (message_body false "Detection engine not initialized")).
Proof.
  intros Hload.
  assert (Hinv : environ (run actions (boot env g)) = env /\
                 detection_engine (run actions (boot env g)) = None /\
                 never_started g (run actions (boot env g))).
  { apply (run_invariant
             (fun w => environ w = env /\ detection_engine w = None /\
                       never_started g w)).
    - intros a w. apply (step_without_engine env g e), Hload.
    - unfold never_started. cbn. repeat split; constructor. }
  destruct Hinv as (Henv & Heng & Hnever).
  destruct (run actions (boot env g)) as [env0 eng m bp th g0 log].
  cbn in Henv, Heng. subst env0 eng.
  split; [reflexivity |]. split; [exact Hnever |].
  unfold start_detection, configuration, stop_detection, ensure_engine,
    DetectionEngine.__init__, mbind, result_bind.
  cbn [detection_engine environ]. rewrite Hload.
  repeat split; reflexivity.
Qed.

Lemma malformed_environment_never_recovers_witness :
  detection_engine
    (run [call_start_detection; call_configuration get;
          loop_round 0 sample_clock]
         (boot malformed_environ sample_rng)) = None /\
  never_started sample_rng
    (run [call_start_detection; call_configuration get;
          loop_round 0 sample_clock]
         (boot malformed_environ sample_rng)) /\
  fst (start_detection
         (run [call_start_detection; call_configuration get;
               loop_round 0 sample_clock]
              (boot malformed_environ sample_rng)))
  = internal_server_error /\
  (forall req,
      fst (configuration req
             (run [call_start_detection; call_configuration get;
                   loop_round 0 sample_clock]
                  (boot malformed_environ sample_rng)))
      = internal_server_error) /\
  (forall joined,
      fst (stop_detection joined
             (run [call_start_detection; call_configuration get;
                   loop_round 0 sample_clock]
                  (boot malformed_environ sample_rng)))
      = jsonify (message_body false "Detection engine not initialized")).
Proof.
  apply (malformed_environment_never_recovers
           malformed_environ sample_rng (ValueError "wide")).
  vm_compute. reflexivity.
Defined.

End Answers.

Section Events.

Lemma step_emitted_kinds (a : action) (w : world) :
  if is_processes_post a then
    exists b, emitted (step a w) = bridge_update b :: emitted w
  else if is_round a then
    emitted (step a w) = emitted w \/
    exists d, emitted (step a w) = detection_update d :: emitted w
  else emitted (step a w) = emitted w.
Proof.
  destruct w as [env eng m bp th g log].
  destruct a as [| | joined | req | [[|] [v | code text]] now | | | tid obs];
    cbn [step is_processes_post is_round].
  all: try (handler_cases; reflexivity).
  - eexists. reflexivity.
  - unfold thread_round, DetectionEngine._detection_loop. handler_simpl.
    case_bool_decide; [| left; reflexivity].
    destruct eng as [self |]; [| left; reflexivity].
    destruct (DetectionEngine.is_running self); [| left; reflexivity].
    destruct (DetectionEngine.iteration self obs m g) as [[m' g'] [d | e]];
      cbn; [right; eexists; reflexivity | left; reflexivity].
Qed.

Lemma bridge_updates_app (l1 l2 : list event) :
  bridge_updates (l1 ++ l2) = (bridge_updates l1 + bridge_updates l2)%nat.
Proof. unfold bridge_updates. rewrite filter_app, length_app. reflexivity. Qed.

(** X15: the log of published events only grows, and by what the steps
    publish: one [bridge_update] for each accepted POST of processes and
    at most one [detection_update] for each round of the loop.  No other
    request publishes anything. *)
Theorem log_append_only (actions : list action) :
  forall w : world,
    exists new : list event,
      emitted (run actions w) = new ++ emitted w /\
      bridge_updates new = accepted_posts actions /\
      (length new <= accepted_posts actions + rounds actions)%nat.
Proof.
  induction actions as [| a actions IH]; intros w.
  - exists []. split; [reflexivity |]. split; [reflexivity | cbn; lia].
  - cbn [run fold_left]. fold (run actions (step a w)).
    destruct (IH (step a w)) as (new & Hlog & Hb & Hlen).
    pose proof (step_emitted_kinds a w) as Hstep.
    unfold accepted_posts, rounds in *. rewrite !filter_cons.
    destruct (is_processes_post a) eqn:Hpost.
    + destruct Hstep as [b Hstep].
      assert (Hr : is_round a = false) by (destruct a; try reflexivity; discriminate).
      rewrite Hr.
      destruct (decide (true = true)) as [_ | Hne]; [| congruence].
      destruct (decide (false = true)) as [Hne | _]; [discriminate |].
      exists (new ++ [bridge_update b]).
      rewrite Hlog, Hstep, <- app_assoc, bridge_updates_app, length_app.
      change (bridge_updates [bridge_update b]) with 1%nat.
      cbn [length]. split; [reflexivity |]. split; lia.
    + destruct (decide (false = true)) as [Hne | _]; [discriminate |].
      destruct (is_round a) eqn:Hr.
      * destruct (decide (true = true)) as [_ | Hne]; [| congruence].
        destruct Hstep as [Hstep | [d Hstep]].
        -- exists new. rewrite Hlog, Hstep. cbn [length].
           split; [reflexivity |]. split; [exact Hb | lia].
        -- exists (new ++ [detection_update d]).
           rewrite Hlog, Hstep, <- app_assoc, bridge_updates_app, length_app.
           change (bridge_updates [detection_update d]) with 0%nat.
           cbn [length]. split; [reflexivity |]. split; lia.
      * destruct (decide (false = true)) as [Hne | _]; [discriminate |].
        exists new. rewrite Hlog, Hstep.
        split; [reflexivity |]. split; [exact Hb | lia].
Qed.

Lemma step_log_agrees (a : action) (w : world) :
  log_agrees w -> log_agrees (step a w).
Proof.
  destruct w as [env eng m bp th g log]. unfold log_agrees. handler_simpl.
  intros Hw.
  destruct a as [| | joined | req | [[|] [v | code text]] now | | | tid obs];
    cbn [step].
  all: try (handler_cases; cbn [last_bridge_update]; exact Hw).
  - unfold processes. handler_simpl. cbn [last_bridge_update processes_sent count].
    split; reflexivity.
  - unfold thread_round, DetectionEngine._detection_loop. handler_simpl.
    case_bool_decide; [| exact Hw].
    destruct eng as [self |]; [| exact Hw].
    destruct (DetectionEngine.is_running self); [| exact Hw].
    destruct (DetectionEngine.iteration self obs m g) as [[m' g'] [d | e]];
      cbn; exact Hw.
Qed.

Lemma step_switch (a : action) (w : world) (self : DetectionEngine.t) :
  detection_engine w = Some self ->
  exists self',
    detection_engine (step a w) = Some self' /\
    DetectionEngine.is_running self'
    = switch (DetectionEngine.is_running self) a.
Proof.
  destruct w as [env eng m bp th g log]. cbn [detection_engine].
  intros ->. destruct self as [c running dt].
  destruct a; cbn [step switch]; handler_cases;
    eexists; (split; [reflexivity |]); cbn in *; try congruence.
  destruct running; [discriminate | reflexivity].
Qed.

(** X17: with an engine, the flag [is_running] is what the last request
    to start or to stop asked for, whether that request was answered by
    a success or by a failure; no other request and no round of the loop
    changes it. *)
Theorem flag_follows_last_request (actions : list action) :
  forall (w : world) (self : DetectionEngine.t),
    detection_engine w = Some self ->
    exists self',
      detection_engine (run actions w) = Some self' /\
      DetectionEngine.is_running self'
      = fold_left switch actions (DetectionEngine.is_running self).
Proof.
  induction actions as [| a actions IH]; intros w self Heng.
  - exists self. split; [exact Heng | reflexivity].
  - destruct (step_switch a w self Heng) as (self1 & Heng1 & Hrun1).
    destruct (IH (step a w) self1 Heng1) as (self' & Heng' & Hrun').
    exists self'. split; [exact Heng' |].
    cbn [fold_left]. rewrite Hrun', Hrun1. reflexivity.
Qed.

Lemma flag_follows_last_request_witness :
  exists self',
    detection_engine
      (run [call_start_detection; call_start_detection;
            loop_round 0 sample_clock; call_stop_detection false;
            call_status]
           (set_engine (boot ∅ sample_rng) sample_engine))
    = Some self' /\
    DetectionEngine.is_running self'
    = fold_left switch
        [call_start_detection; call_start_detection;
         loop_round 0 sample_clock; call_stop_detection false; call_status]
        (DetectionEngine.is_running sample_engine).
Proof.
  apply flag_follows_last_request. reflexivity.
Defined.

Lemma step_metrics_round (a : action) (w : world) :
  detection_metrics (step a w) = detection_metrics w \/
  exists tid obs self,
    a = loop_round tid obs /\
    detection_metrics (step a w)
    = fst (fst (DetectionEngine.iteration self obs (detection_metrics w)
                                          (random w))).
Proof.
  destruct (is_round a) eqn:Hr.
  - destruct a as [| | | | | | | tid obs]; try discriminate.
    destruct w as [env eng m bp th g log]. cbn [step].
    unfold thread_round, DetectionEngine._detection_loop. handler_simpl.
    case_bool_decide; [| left; reflexivity].
    destruct eng as [self |]; [| left; reflexivity].
    destruct (DetectionEngine.is_running self); [| left; reflexivity].
    right. exists tid, obs, self. split; [reflexivity |].
    destruct (DetectionEngine.iteration self obs m g) as [[m' g'] out].
    reflexivity.
  - left. apply step_metrics_no_round, Hr.
Qed.

(** X18: the metric named [average_processing_time] is no average: after
    any run it is the processing time of a single round, the one that
    last wrote the metrics, and [last_detection_time] is the time read in
    that same round; both are untouched when no round went through the
    body of the loop. *)
Theorem average_is_last_round (actions : list action) :
  forall w : world,
    detection_metrics (run actions w) = detection_metrics w \/
    exists before tid obs rest,
      actions = before ++ loop_round tid obs :: rest /\
      detection_metrics (run actions w)
      = detection_metrics (step (loop_round tid obs) (run before w)) /\
      last_detection_time (detection_metrics (run actions w))
      = Some (now_metrics obs) /\
      average_processing_time (detection_metrics (run actions w))
      = PFloat (Float.mul (Float.sub (end_time obs) (start_time obs))
                          Float.lit_1000_0).
Proof.
  induction actions as [| a actions IH]; intros w; [left; reflexivity |].
  cbn [run fold_left]. fold (run actions (step a w)).
  destruct (IH (step a w))
    as [Heq | (before & tid & obs & rest & -> & Hm & Hl & Ha)].
  - rewrite Heq.
    destruct (step_metrics_round a w) as [Hsame | (tid & obs & self & -> & Hm)].
    + left. exact Hsame.
    + right. exists [], tid, obs, actions. split; [reflexivity |].
      split; [reflexivity |]. rewrite Hm.
      destruct (iteration_metrics self obs (detection_metrics w) (random w))
        as (_ & _ & Hl & Ha).
      split; [exact Hl | exact Ha].
  - right. exists (a :: before), tid, obs, rest. split; [reflexivity |].
    split; [exact Hm |]. split; [exact Hl | exact Ha].
Qed.

End Events.

Section Flags.

Lemma lower_char_inv (c : ascii) :
  (Py.lower_char c = "t"%char -> c = "t"%char \/ c = "T"%char) /\
  (Py.lower_char c = "r"%char -> c = "r"%char \/ c = "R"%char) /\
  (Py.lower_char c = "u"%char -> c = "u"%char \/ c = "U"%char) /\
  (Py.lower_char c = "e"%char -> c = "e"%char \/ c = "E"%char).
Proof.
  destruct c as [[|] [|] [|] [|] [|] [|] [|] [|]];
    vm_compute; repeat split; intros H;
    first [discriminate H | left; reflexivity | right; reflexivity].
Qed.

Lemma lower_true (s : string) :
  Py.lower s = "true" <-> s ∈ spellings_of_true.
Proof.
  split.
  - destruct s as [| c1 [| c2 [| c3 [| c4 [| c5 s]]]]];
      cbn [Py.lower]; try discriminate.
    intros [= H1 H2 H3 H4].
    apply lower_char_inv in H1, H2, H3, H4.
    unfold spellings_of_true.
    destruct H1 as [-> | ->], H2 as [-> | ->], H3 as [-> | ->],
             H4 as [-> | ->];
      repeat first [apply list_elem_of_here | apply list_elem_of_further].
  - unfold spellings_of_true. intros Hin.
    repeat (apply elem_of_cons in Hin as [-> | Hin]; [reflexivity |]).
    apply elem_of_nil in Hin. contradiction.
Qed.

(** X19: a boolean option is true for the sixteen spellings of "true" in
    upper and lower case and for nothing else: neither "1", "yes" or
    "on" nor a text with a space around it turns an option on. *)
Theorem flag_spellings (env : gmap string string) (name dflt : string) :
  DetectionEngine.flag_env env name dflt = true
  <-> default dflt (env !! name) ∈ spellings_of_true.
Proof.
  unfold DetectionEngine.flag_env. rewrite String.eqb_eq. apply lower_true.
Qed.

End Flags.

(** * Overlapping POSTs of processes *)

Section Overlapping.

Lemma make_bridge (m : Overlap.move) (s : Overlap.system) :
  Overlap.assigns m s = false ->
  bridge_processes (Overlap.shared (Overlap.make m s))
  = bridge_processes (Overlap.shared s).
Proof.
  destruct m as [data now | i | a]; cbn [Overlap.assigns Overlap.make];
    intros Hm.
  - reflexivity.
  - destruct (Overlap.handlers s !! i) as [h |]; [| reflexivity].
    destruct h; try discriminate; reflexivity.
  - apply step_bridge_no_post, Hm.
Qed.

Lemma undisturbed_bridge (moves : list Overlap.move) :
  forall s : Overlap.system,
    Overlap.undisturbed moves s = true ->
    bridge_processes (Overlap.shared (Overlap.run moves s))
    = bridge_processes (Overlap.shared s).
Proof.
  induction moves as [| m moves IH]; intros s Hq; [reflexivity |].
  cbn [Overlap.undisturbed] in Hq. apply andb_true_iff in Hq as [Hm Hq].
  apply negb_true_iff in Hm.
  cbn [Overlap.run fold_left]. fold (Overlap.run moves (Overlap.make m s)).
  rewrite (IH _ Hq). apply make_bridge, Hm.
Qed.

Lemma make_resume (s : Overlap.system) (i : nat) (h : Overlap.in_flight) :
  Overlap.handlers s !! i = Some h ->
  Overlap.shared (Overlap.make (Overlap.resume i) s)
  = snd (Overlap.advance h (Overlap.shared s)) /\
  Overlap.handlers (Overlap.make (Overlap.resume i) s) !! i
  = Some (fst (Overlap.advance h (Overlap.shared s))).
Proof.
  intros Hi. cbn [Overlap.make]. rewrite Hi.
  destruct (Overlap.advance h (Overlap.shared s)) as [h' w'].
  cbn [Overlap.shared Overlap.handlers fst snd].
  split; [reflexivity |].
  apply list_lookup_insert_eq. apply lookup_lt_Some in Hi. exact Hi.
Qed.

Lemma make_keeps_handler (m : Overlap.move) (s : Overlap.system) (i : nat)
    (h : Overlap.in_flight) :
  m <> Overlap.resume i ->
  Overlap.handlers s !! i = Some h ->
  Overlap.handlers (Overlap.make m s) !! i = Some h.
Proof.
  intros Hm Hi. destruct m as [data now | j | a]; cbn [Overlap.make].
  - cbn [Overlap.handlers]. apply lookup_app_l_Some, Hi.
  - destruct (Overlap.handlers s !! j) as [hj |]; [| exact Hi].
    destruct (Overlap.advance hj (Overlap.shared s)) as [h' w'].
    cbn [Overlap.handlers]. rewrite list_lookup_insert_ne; [exact Hi |].
    intros ->. apply Hm. reflexivity.
  - exact Hi.
Qed.

Lemma run_keeps_handler (moves : list Overlap.move) (i : nat)
    (h : Overlap.in_flight) :
  Forall (fun m => m <> Overlap.resume i) moves ->
  forall s : Overlap.system,
    Overlap.handlers s !! i = Some h ->
    Overlap.handlers (Overlap.run moves s) !! i = Some h.
Proof.
  induction 1 as [| m moves Hm _ IH]; intros s Hi; [exact Hi |].
  cbn [Overlap.run fold_left]. fold (Overlap.run moves (Overlap.make m s)).
  apply IH, make_keeps_handler; assumption.
Qed.

Lemma run_app (moves1 moves2 : list Overlap.move) (s : Overlap.system) :
  Overlap.run (moves1 ++ moves2) s
  = Overlap.run moves2 (Overlap.run moves1 s).
Proof. apply fold_left_app. Qed.

(** C9, as the code has it: the handler of a POST of processes goes
    through the stored list four times, and other requests may run in
    between.  When, from the moment it reads the list for the event up
    to its answer, nothing else assigns the stored list, then the count
    of the answer, the count of the event and the length of the list
    stored when it answers are equal, and the event carries that list.
    What runs between the assignment and the read of the list is
    free. *)
Theorem processes_counts_agree (s : Overlap.system) (i : nat) (data : pyval)
    (now : string) (moves1 moves2 moves3 : list Overlap.move) :
  let s1 :=
    Overlap.run (Overlap.resume i :: moves1 ++ [Overlap.resume i]) s in
  let s2 := Overlap.run moves2 s1 in
  let s3 := Overlap.make (Overlap.resume i) s2 in
  let s4 := Overlap.run (moves3 ++ [Overlap.resume i]) s3 in
  Overlap.handlers s !! i = Some (Overlap.at_assign data now) ->
  Forall (fun m => m <> Overlap.resume i) (moves1 ++ moves2 ++ moves3) ->
  Overlap.undisturbed moves2 s1 = true ->
  Overlap.undisturbed moves3 s3 = true ->
  exists (ev : bridge_data) (n : Z),
    emitted (Overlap.shared s3)
    = bridge_update ev :: emitted (Overlap.shared s2) /\
    Overlap.handlers s4 !! i
    = Some (Overlap.replied
              (jsonify (count_body true "Processes received successfully" n))) /\
    count ev = n /\
    n = Z.of_nat (length (bridge_processes (Overlap.shared s4))) /\
    processes_sent ev = bridge_processes (Overlap.shared s4).
Proof.
  intros s1 s2 s3 s4 Hi Hothers Hq2 Hq3.
  apply Forall_app in Hothers as [Ho1 Hothers].
  apply Forall_app in Hothers as [Ho2 Ho3].
  (* line 542 *)
  destruct (make_resume s i _ Hi) as [_ Ha]. cbn [Overlap.advance fst] in Ha.
  pose proof (run_keeps_handler moves1 i _ Ho1 _ Ha) as Hb.
  (* line 548 *)
  destruct (make_resume _ i _ Hb) as [Hw1 H1]. cbn [Overlap.advance fst snd] in Hw1, H1.
  assert (Hs1 : s1 = Overlap.make (Overlap.resume i)
                       (Overlap.run moves1 (Overlap.make (Overlap.resume i) s))).
  { unfold s1. cbn [Overlap.run fold_left].
    fold (Overlap.run (moves1 ++ [Overlap.resume i])
                      (Overlap.make (Overlap.resume i) s)).
    rewrite run_app. reflexivity. }
  rewrite <- Hs1 in Hw1, H1.
  set (l := bridge_processes
              (Overlap.shared
                 (Overlap.run moves1 (Overlap.make (Overlap.resume i) s)))) in *.
  assert (Hl : bridge_processes (Overlap.shared s1) = l)
    by (rewrite Hw1; reflexivity).
  pose proof (run_keeps_handler moves2 i _ Ho2 _ H1) as H2. fold s2 in H2.
  pose proof (undisturbed_bridge moves2 s1 Hq2) as Hb2. fold s2 in Hb2.
  (* lines 550 and 551 *)
  destruct (make_resume _ i _ H2) as [Hw3 H3]. fold s3 in Hw3, H3.
  cbn [Overlap.advance fst snd] in Hw3, H3.
  pose proof (run_keeps_handler moves3 i _ Ho3 _ H3) as H3'.
  pose proof (undisturbed_bridge moves3 s3 Hq3) as Hb3.
  (* line 556 *)
  destruct (make_resume _ i _ H3') as [Hw4 H4].
  cbn [Overlap.advance fst snd] in Hw4, H4.
  assert (Hs4 : s4 = Overlap.make (Overlap.resume i) (Overlap.run moves3 s3))
    by (unfold s4; rewrite run_app; reflexivity).
  rewrite <- Hs4 in Hw4, H4.
  exists (processes_event l now (Overlap.shared s2)), (Z.of_nat (length l)).
  assert (Hfinal : bridge_processes (Overlap.shared s4) = l).
  { rewrite Hw4, Hb3, Hw3. cbn [processes_emit bridge_processes].
    rewrite Hb2. exact Hl. }
  split; [rewrite Hw3; reflexivity |].
  split.
  { rewrite H4. unfold processes_reply. rewrite Hb3, Hw3.
    cbn [processes_emit bridge_processes]. rewrite Hb2, Hl. reflexivity. }
  split.
  { cbn [processes_event count]. rewrite Hb2, Hl. reflexivity. }
  split; [rewrite Hfinal; reflexivity |].
  rewrite Hfinal. reflexivity.
Qed.

Lemma processes_counts_agree_witness :
  exists (ev : bridge_data) (n : Z),
    emitted
      (Overlap.shared
         (Overlap.make (Overlap.resume 0)
            (Overlap.run
               [Overlap.alone (loop_round 0 sample_clock);
                Overlap.alone call_status; Overlap.resume 1]
               (Overlap.run
                  [Overlap.resume 0; Overlap.arrive one_process "t1";
                   Overlap.resume 1; Overlap.resume 0]
                  (Overlap.make (Overlap.arrive two_processes "t0")
                                (Overlap.boot ∅ sample_rng))))))
    = bridge_update ev
      :: emitted
           (Overlap.shared
              (Overlap.run
                 [Overlap.alone (loop_round 0 sample_clock);
                  Overlap.alone call_status; Overlap.resume 1]
                 (Overlap.run
                    [Overlap.resume 0; Overlap.arrive one_process "t1";
                     Overlap.resume 1; Overlap.resume 0]
                    (Overlap.make (Overlap.arrive two_processes "t0")
                                  (Overlap.boot ∅ sample_rng))))) /\
    Overlap.handlers
      (Overlap.run
         [Overlap.alone (call_processes get "t2"); Overlap.resume 0]
         (Overlap.make (Overlap.resume 0)
            (Overlap.run
               [Overlap.alone (loop_round 0 sample_clock);
                Overlap.alone call_status; Overlap.resume 1]
               (Overlap.run
                  [Overlap.resume 0; Overlap.arrive one_process "t1";
                   Overlap.resume 1; Overlap.resume 0]
                  (Overlap.make (Overlap.arrive two_processes "t0")
                                (Overlap.boot ∅ sample_rng)))))) !! 0%nat
    = Some (Overlap.replied
              (jsonify (count_body true "Processes received successfully" n))) /\
    count ev = n /\
    n = Z.of_nat
          (length
             (bridge_processes
                (Overlap.shared
                   (Overlap.run
                      [Overlap.alone (call_processes get "t2");
                       Overlap.resume 0]
                      (Overlap.make (Overlap.resume 0)
                         (Overlap.run
                            [Overlap.alone (loop_round 0 sample_clock);
                             Overlap.alone call_status; Overlap.resume 1]
                            (Overlap.run
                               [Overlap.resume 0;
                                Overlap.arrive one_process "t1";
                                Overlap.resume 1; Overlap.resume 0]
                               (Overlap.make
                                  (Overlap.arrive two_processes "t0")
                                  (Overlap.boot ∅ sample_rng))))))))) /\
    processes_sent ev
    = bridge_processes
        (Overlap.shared
           (Overlap.run
              [Overlap.alone (call_processes get "t2"); Overlap.resume 0]
              (Overlap.make (Overlap.resume 0)
                 (Overlap.run
                    [Overlap.alone (loop_round 0 sample_clock);
                     Overlap.alone call_status; Overlap.resume 1]
                    (Overlap.run
                       [Overlap.resume 0; Overlap.arrive one_process "t1";
                        Overlap.resume 1; Overlap.resume 0]
                       (Overlap.make (Overlap.arrive two_processes "t0")
                                     (Overlap.boot ∅ sample_rng))))))).
Proof.
  apply (processes_counts_agree
           (Overlap.make (Overlap.arrive two_processes "t0")
                         (Overlap.boot ∅ sample_rng))
           0 two_processes "t0"
           [Overlap.arrive one_process "t1"; Overlap.resume 1]
           [Overlap.alone (loop_round 0 sample_clock);
            Overlap.alone call_status; Overlap.resume 1]
           [Overlap.alone (call_processes get "t2")]).
  - reflexivity.
  - repeat (constructor; [discriminate |]). constructor.
  - reflexivity.
  - reflexivity.
Defined.

(** Against C9 as it is stated: two POSTs that overlap.  When the
    second assigns its list of one record after the first, which posts
    two records, has read the list for its event, the event of the
    first carries two records with the count 1.  When the second
    assigns after the event of the first is emitted, the first answers
    the count 1 to an event of count 2.  Either way the list stored
    when the first answers is the one of the second. *)
Lemma overlapping_posts_disagree :
  (emitted
     (Overlap.shared
        (Overlap.run
           [Overlap.arrive two_processes "t0"; Overlap.resume 0;
            Overlap.resume 0;
            Overlap.arrive one_process "t1"; Overlap.resume 1;
            Overlap.resume 0; Overlap.resume 0]
           (Overlap.boot ∅ sample_rng)))
   = [bridge_update
        (mk_bridge_data [PStr "a.exe"; PStr "b.exe"] "t0" 1)] /\
   bridge_processes
     (Overlap.shared
        (Overlap.run
           [Overlap.arrive two_processes "t0"; Overlap.resume 0;
            Overlap.resume 0;
            Overlap.arrive one_process "t1"; Overlap.resume 1;
            Overlap.resume 0; Overlap.resume 0]
           (Overlap.boot ∅ sample_rng)))
   = [PStr "c.exe"]) /\
  (emitted
     (Overlap.shared
        (Overlap.run
           [Overlap.arrive two_processes "t0"; Overlap.resume 0;
            Overlap.resume 0; Overlap.resume 0;
            Overlap.arrive one_process "t1"; Overlap.resume 1;
            Overlap.resume 0]
           (Overlap.boot ∅ sample_rng)))
   = [bridge_update
        (mk_bridge_data [PStr "a.exe"; PStr "b.exe"] "t0" 2)] /\
   Overlap.handlers
     (Overlap.run
        [Overlap.arrive two_processes "t0"; Overlap.resume 0;
         Overlap.resume 0; Overlap.resume 0;
         Overlap.arrive one_process "t1"; Overlap.resume 1;
         Overlap.resume 0]
        (Overlap.boot ∅ sample_rng)) !! 0%nat
   = Some (Overlap.replied
             (jsonify (count_body true "Processes received successfully" 1)))).
Proof. repeat split. Qed.

(** The runs of [run] are the runs in which every request is served
    alone. *)
Lemma run_alone (actions : list action) :
  forall s : Overlap.system,
    Overlap.run (map Overlap.alone actions) s
    = Overlap.mk_system (run actions (Overlap.shared s)) (Overlap.handlers s).
Proof.
  induction actions as [| a actions IH]; intros s.
  - destruct s. reflexivity.
  - cbn [map Overlap.run fold_left].
    fold (Overlap.run (map Overlap.alone actions)
                      (Overlap.make (Overlap.alone a) s)).
    rewrite IH. reflexivity.
Qed.

(** An uninterrupted POST of processes is its handler going through its
    four accesses in a row. *)
Lemma processes_alone (data : pyval) (now : string) (w : world) :
  Overlap.run
    [Overlap.arrive data now; Overlap.resume 0; Overlap.resume 0;
     Overlap.resume 0; Overlap.resume 0]
    (Overlap.mk_system w [])
  = Overlap.mk_system (snd (processes (post data) now w))
                      [Overlap.replied (fst (processes (post data) now w))].
Proof. reflexivity. Qed.

Lemma replied_before (before : list Overlap.in_flight) (j : nat)
    (h : Overlap.in_flight) (w : world) :
  forallb Overlap.is_replied before = true ->
  before !! j = Some h ->
  Overlap.advance h w = (h, w).
Proof.
  intros Hall Hj. rewrite forallb_forall in Hall.
  apply list_elem_of_lookup_2, list_elem_of_In, Hall in Hj.
  destruct h; try discriminate. reflexivity.
Qed.

Lemma advance_on_course (h : Overlap.in_flight) (w : world) :
  on_course h w ->
  on_course (fst (Overlap.advance h w)) (snd (Overlap.advance h w)).
Proof.
  destruct h as [data now | now | l now | | r];
    cbn [Overlap.advance fst snd on_course].
  - intros _. exact I.
  - intros _. reflexivity.
  - intros ->. unfold log_agrees, processes_emit, processes_event.
    cbn [emitted last_bridge_update processes_sent count bridge_processes].
    split; reflexivity.
  - intros H. exact H.
  - intros H. exact H.
Qed.

Lemma step_on_course (a : action) (h : Overlap.in_flight) (w : world) :
  is_processes_post a = false -> on_course h w -> on_course h (step a w).
Proof.
  intros Ha. destruct h; cbn [on_course]; try apply step_log_agrees.
  - intros _. exact I.
  - intros ->. symmetry. apply step_bridge_no_post, Ha.
Qed.

Lemma idle_on_course (before : list Overlap.in_flight)
    (h : Overlap.in_flight) (w : world) :
  forallb Overlap.is_replied (before ++ [h]) = true ->
  on_course h w -> log_agrees w.
Proof.
  rewrite forallb_app. intros Hall. apply andb_true_iff in Hall as [_ Hh].
  cbn in Hh. destruct h; try discriminate. intros H. exact H.
Qed.

Lemma make_one_in_flight (m : Overlap.move) (s : Overlap.system) :
  Overlap.admits m s = true -> one_in_flight s ->
  one_in_flight (Overlap.make m s).
Proof.
  destruct s as [w hs]. unfold one_in_flight, Overlap.idle.
  cbn [Overlap.shared Overlap.handlers].
  destruct m as [data now | j | a];
    cbn [Overlap.admits Overlap.make Overlap.shared Overlap.handlers];
    unfold Overlap.idle; cbn [Overlap.handlers]; intros Hm HJ.
  - right. exists hs, (Overlap.at_assign data now).
    split; [reflexivity |]. split; [exact Hm |]. cbn [on_course].
    destruct HJ as [[_ H] | (before & h & -> & _ & H)]; [exact H |].
    exact (idle_on_course before h w Hm H).
  - destruct HJ as [[-> H] | (before & h & -> & Hall & H)].
    + left. split; [reflexivity | exact H].
    + destruct (decide (j < length before)%nat) as [Hlt | Hge].
      * destruct (lookup_lt_is_Some_2 before j Hlt) as [hj Hj].
        rewrite (lookup_app_l_Some _ _ _ _ Hj).
        rewrite (replied_before before j hj w Hall Hj).
        cbn [Overlap.shared Overlap.handlers]. right. exists before, h.
        split; [| split; assumption].
        apply list_insert_id, lookup_app_l_Some, Hj.
      * destruct (decide (j = length before)) as [-> | Hne].
        -- rewrite list_lookup_middle by reflexivity.
           pose proof (advance_on_course h w H) as H'.
           destruct (Overlap.advance h w) as [h' w'].
           cbn [Overlap.shared Overlap.handlers fst snd] in *.
           right. exists before, h'.
           split; [| split; assumption].
           replace (length before) with (length before + 0)%nat by lia.
           rewrite insert_app_r. reflexivity.
        -- rewrite lookup_ge_None_2; [right; exists before, h; auto |].
           rewrite length_app. cbn [length]. lia.
  - destruct (is_processes_post a) eqn:Ha.
    + destruct HJ as [[-> H] | (before & h & -> & Hall & H)].
      * left. split; [reflexivity | apply step_log_agrees, H].
      * right. exists before, h. split; [reflexivity |].
        split; [exact Hall |].
        pose proof (idle_on_course before h w Hm H) as Hlog.
        rewrite forallb_app in Hm. apply andb_true_iff in Hm as [_ Hh].
        cbn in Hh. destruct h; try discriminate.
        cbn [on_course]. apply step_log_agrees, Hlog.
    + destruct HJ as [[-> H] | (before & h & -> & Hall & H)].
      * left. split; [reflexivity | apply step_log_agrees, H].
      * right. exists before, h. split; [reflexivity |].
        split; [exact Hall | apply step_on_course; assumption].
Qed.

Lemma run_one_in_flight (moves : list Overlap.move) :
  forall s : Overlap.system,
    Overlap.one_at_a_time moves s = true -> one_in_flight s ->
    one_in_flight (Overlap.run moves s).
Proof.
  induction moves as [| m moves IH]; intros s Hserial HJ; [exact HJ |].
  cbn [Overlap.one_at_a_time] in Hserial.
  apply andb_true_iff in Hserial as [Hm Hserial].
  cbn [Overlap.run fold_left]. fold (Overlap.run moves (Overlap.make m s)).
  apply IH; [exact Hserial | apply make_one_in_flight; assumption].
Qed.

(** X16: when the POSTs of processes are served one at a time, whatever
    else runs between their accesses to the stored list (other
    requests, rounds of the loop), then at every point at which none is
    in flight the stored list of processes is the one the most recent
    [bridge_update] carries, and the count of that event is its length;
    the list is empty as long as no [bridge_update] was published. *)
Theorem stored_list_matches_last_event (moves : list Overlap.move)
    (env : gmap string string) (g : rng) :
  Overlap.one_at_a_time moves (Overlap.boot env g) = true ->
  Overlap.idle (Overlap.run moves (Overlap.boot env g)) = true ->
  log_agrees (Overlap.shared (Overlap.run moves (Overlap.boot env g))).
Proof.
  intros Hserial Hidle.
  assert (HJ : one_in_flight (Overlap.run moves (Overlap.boot env g))).
  { apply run_one_in_flight; [exact Hserial |].
    left. split; reflexivity. }
  destruct HJ as [[_ H] | (before & h & Hhs & _ & H)]; [exact H |].
  unfold Overlap.idle in Hidle. rewrite Hhs in Hidle.
  exact (idle_on_course before h _ Hidle H).
Qed.

Lemma stored_list_matches_last_event_witness :
  log_agrees
    (Overlap.shared
       (Overlap.run
          [Overlap.alone call_start_detection;
           Overlap.arrive two_processes "t0"; Overlap.resume 0;
           Overlap.alone (loop_round 0 sample_clock); Overlap.resume 0;
           Overlap.alone (call_processes get "t1"); Overlap.resume 0;
           Overlap.alone call_status; Overlap.resume 0;
           Overlap.alone (call_processes (post one_process) "t2")]
          (Overlap.boot ∅ sample_rng))).
Proof.
  apply stored_list_matches_last_event; reflexivity.
Defined.

End Overlapping.
